(** * pdf-splitter: a shallow embedding of [main.py]

    The program is one procedure, [split_pdf_by_pages], that opens a PDF,
    normalises and validates a list of split points, and writes one PDF per
    page range.  The pure part (normalisation, validation, boundaries) is
    embedded as functions on [list Z]; the effectful part (document handles,
    output folder, files on disk, console) is embedded in a small state monad
    with early return over an explicit [world].

    The PDF library (PyMuPDF) and the file system are outside the program:
    their answers are read from an environment [env].  [fitz.open] and
    [save] may raise inside a [try]; [os.makedirs] may raise outside any, and
    its exception then leaves the function. *)

From Stdlib Require Import ZArith Ascii String Decimal DecimalString DecimalZ.
From stdpp Require Import base list sorting gmap strings.

Local Open Scope Z_scope.

(** ** Python built-ins used by the program *)

Module Py.

(** [set(xs)] on integers. *)
Definition set (xs : list Z) : gset Z := list_to_set xs.

(** [sorted(s)]: the elements in ascending order.  The iteration order of a
    Python set is unspecified; [elements] is some order, and sorting makes
    the result independent of it. *)
Definition sorted (s : gset Z) : list Z := merge_sort Z.le (elements s).

(** [range(a, b)] as a list of integers. *)
Definition range (a b : Z) : list Z := seqZ a (b - a).

(** [str(n)] for an integer, as used by an f-string. *)
Definition str (n : Z) : string := NilZero.string_of_int (Z.to_int n).

(** [os.path.join(a, b)] on POSIX for two components. *)
Definition starts_with_slash (s : string) : bool :=
  match s with
  | String c _ => bool_decide (c = "/"%char)
  | EmptyString => false
  end.

Fixpoint ends_with_slash (s : string) : bool :=
  match s with
  | EmptyString => false
  | String c EmptyString => bool_decide (c = "/"%char)
  | String _ s' => ends_with_slash s'
  end.

Definition path_join (a b : string) : string :=
  if starts_with_slash b then b
  else if bool_decide (a = "") || ends_with_slash a then a +:+ b
  else a +:+ "/" +:+ b.

End Py.

(** ** The pure part of [split_pdf_by_pages] *)

(** Line 29: [sorted(set(split_pages))]. *)
Definition normalize (split_pages : list Z) : list Z :=
  Py.sorted (Py.set split_pages).

(** Line 30: the guard [split_pages and (split_pages[0] < 1 or
    split_pages[-1] >= total_pages)].  [split_pages[0]] is [head] and
    [split_pages[-1]] is [last]; Python evaluates them only when the list is
    non-empty. *)
Definition needs_adjusting (total_pages : Z) (split_pages : list Z) : bool :=
  match head split_pages, last split_pages with
  | Some first, Some final => (first <? 1) || (final >=? total_pages)
  | _, _ => false
  end.

(** Line 32: [[p for p in split_pages if 1 <= p < total_pages]]. *)
Definition in_bounds (total_pages p : Z) : bool :=
  (1 <=? p) && (p <? total_pages).

Definition keep_in_bounds (total_pages : Z) (split_pages : list Z) : list Z :=
  filter (λ p, in_bounds total_pages p = true) split_pages.

(** Lines 29-32 together: the value of [split_pages] that reaches line 33. *)
Definition validate (total_pages : Z) (split_pages : list Z) : list Z :=
  let split_pages := normalize split_pages in
  if needs_adjusting total_pages split_pages
  then keep_in_bounds total_pages split_pages
  else split_pages.

(** Line 43. *)
Definition boundaries (total_pages : Z) (split_pages : list Z) : list Z :=
  [0] ++ split_pages ++ [total_pages].

(** Line 55: the file name of the chunk [start_page, end_page). *)
Definition chunk_name (start_page end_page : Z) : string :=
  "chunk_" +:+ Py.str (start_page + 1) +:+ "_to_" +:+ Py.str end_page +:+ ".pdf".

(** ** The world the program acts on *)

(** A [fitz.Document] object: whether it is still open, and the pages it
    holds, each named by its 0-indexed position in the input PDF. *)
Record document := Document { is_open : bool; pages : list Z }.

(** Documents are referred to by handle: the position in [handles] at which
    they were created.  [folders] holds the paths that are directories,
    [disk] maps the path of a file to the pages it holds. *)
Record world := World {
  handles : list document;
  folders : gset string;
  disk : gmap string (list Z);
  stdout : list string
}.

Inductive result (A : Type) :=
  | Ok (a : A)
  | Raised (err : string).
Arguments Ok {A} a.
Arguments Raised {A} err.

(** What the outside answers.
    - [pdf_at path] is the page count of a PDF that [fitz.open(path)] can
      parse and whose pages can be copied, or the exception it raises.
    - [makedirs_to path] is what [os.makedirs(path)] does: the missing parent
      folders it creates, and the exception it raises, if any (an empty
      path, a parent that is a file, a path it may not write to).
    - [save_to path] is [None] when [save(path)] writes the file and the
      exception otherwise.
    - [save_residue path] is what a save that raises leaves at its target:
      [None] when it has not touched it, [Some None] when it has removed what
      was there, [Some (Some ps)] when it leaves a file of pages [ps]. *)
Record env := Env {
  pdf_at : string → result nat;
  makedirs_to : string → list string * option string;
  save_to : string → option string;
  save_residue : string → option (option (list Z))
}.

(** ** Commands: state passing with Python's [return] and exceptions *)

(** How a command ends: it falls through to the next statement, it executes
    [return], or an exception escapes it. *)
Inductive flow (A : Type) :=
  | Next (a : A)
  | Returned
  | Escaped (err : string).
Arguments Next {A} a.
Arguments Returned {A}.
Arguments Escaped {A} err.

Definition cmd (A : Type) : Type := world → flow A * world.

Global Instance cmd_ret : MRet cmd := λ A a w, (Next a, w).
Global Instance cmd_bind : MBind cmd := λ A B k c w,
  match c w with
  | (Next a, w') => k a w'
  | (Returned, w') => (Returned, w')
  | (Escaped err, w') => (Escaped err, w')
  end.

(** The statement [return]. *)
Definition return_ {A} : cmd A := λ w, (Returned, w).

(** [for x in xs: body]. *)
Fixpoint for_each {A} (xs : list A) (body : A → cmd unit) : cmd unit :=
  match xs with
  | [] => mret tt
  | x :: xs' => body x ;; for_each xs' body
  end.

Definition set_handles (hs : list document) (w : world) : world :=
  World hs (folders w) (disk w) (stdout w).
Definition set_folders (fs : gset string) (w : world) : world :=
  World (handles w) fs (disk w) (stdout w).
Definition set_disk (d : gmap string (list Z)) (w : world) : world :=
  World (handles w) (folders w) d (stdout w).

Definition print (line : string) : cmd unit := λ w,
  (Next tt, World (handles w) (folders w) (disk w) (stdout w ++ [line])).

(** [fitz.open(path)]: a new open document with pages [0 .. n-1], or the
    exception. *)
Definition fitz_open (e : env) (path : string) : cmd (result nat) := λ w,
  match pdf_at e path with
  | Ok n =>
      (Next (Ok (length (handles w))),
       set_handles (handles w ++ [Document true (seqZ 0 (Z.of_nat n))]) w)
  | Raised err => (Next (Raised err), w)
  end.

(** [fitz.open()]: a new empty document. *)
Definition fitz_new : cmd nat := λ w,
  (Next (length (handles w)), set_handles (handles w ++ [Document true []]) w).

(** [len(doc)]. *)
Definition len (doc : nat) : cmd Z := λ w,
  (Next (Z.of_nat (length (default [] (pages <$> handles w !! doc)))), w).

(** [new_doc.insert_pdf(doc, from_page=a, to_page=b)]: append the pages of
    [doc] at positions [a .. b], both included.  The program calls it with
    [0 <= a <= b < len(doc)] only. *)
Definition insert_pdf (new_doc doc : nat) (from_page to_page : Z) : cmd unit := λ w,
  let src := default [] (pages <$> handles w !! doc) in
  let copied := take (Z.to_nat (to_page - from_page + 1)) (drop (Z.to_nat from_page) src) in
  (Next tt,
   set_handles (alter (λ d, Document (is_open d) (pages d ++ copied)) new_doc (handles w)) w).

(** [new_doc.save(path)].  The save removes what is at [path] before it
    writes: a file there is replaced, and so is an empty folder.  A save that
    raises may already have done so; the environment says what it leaves. *)
Definition save (e : env) (new_doc : nat) (path : string) : cmd (option string) := λ w,
  match save_to e path with
  | None =>
      (Next None,
       World (handles w) (folders w ∖ {[path]})
             (<[path := default [] (pages <$> handles w !! new_doc)]> (disk w))
             (stdout w))
  | Some err =>
      (Next (Some err),
       match save_residue e path with
       | None => w
       | Some residue =>
           World (handles w) (folders w ∖ {[path]})
                 (partial_alter (λ _, residue) path (disk w)) (stdout w)
       end)
  end.

(** [doc.close()]. *)
Definition closed (d : document) : document := Document false (pages d).

Definition close (doc : nat) : cmd unit := λ w,
  (Next tt, set_handles (alter closed doc (handles w)) w).

(** [os.path.exists(path)]: a folder or a file of that name. *)
Definition path_exists (path : string) : cmd bool := λ w,
  (Next (bool_decide (path ∈ folders w) || bool_decide (is_Some (disk w !! path))), w).

(** [os.makedirs(path)]: the folder and its missing parents are created, or
    an exception escapes, some parents having possibly been created. *)
Definition makedirs (e : env) (path : string) : cmd unit := λ w,
  match makedirs_to e path with
  | (parents, None) =>
      (Next tt, set_folders ({[path]} ∪ list_to_set parents ∪ folders w) w)
  | (parents, Some err) =>
      (Escaped err, set_folders (list_to_set parents ∪ folders w) w)
  end.

(** ** [split_pdf_by_pages] *)

Definition default_output_folder : string := "output_chunks".

(** Lines 45-65: the body of the loop, once [start_page] and [end_page] are
    read from [boundaries]. *)
Definition chunk_body (e : env) (doc : nat) (output_folder : string)
    (start_page end_page : Z) : cmd unit :=
  if bool_decide (start_page >= end_page) then mret tt
  else
    print ("Processing chunk from page " +:+ Py.str (start_page + 1)
           +:+ " to " +:+ Py.str end_page) ;;
    new_doc ← fitz_new ;
    insert_pdf new_doc doc start_page (end_page - 1) ;;
    let output_pdf_path := Py.path_join output_folder (chunk_name start_page end_page) in
    print ("Attempting to write to: " +:+ output_pdf_path) ;;
    saved ← save e new_doc output_pdf_path ;
    match saved with
    | None =>
        close new_doc ;;
        print ("Successfully wrote " +:+ output_pdf_path)
    | Some err =>
        print ("Error writing PDF file " +:+ output_pdf_path +:+ ": " +:+ err) ;;
        close new_doc ;;
        close doc ;;
        return_
    end.

(** Lines 44-65: [for chunk_idx in range(len(boundaries) - 1)].  The indices
    [chunk_idx] and [chunk_idx + 1] are always within [boundaries]. *)
Definition chunk_loop (e : env) (doc : nat) (output_folder : string)
    (boundaries : list Z) : cmd unit :=
  for_each (seq 0 (length boundaries - 1)) (λ chunk_idx,
    let start_page := boundaries !!! chunk_idx in
    let end_page := boundaries !!! (chunk_idx + 1)%nat in
    chunk_body e doc output_folder start_page end_page).

Definition split_pdf_by_pages (e : env) (input_pdf_path : string)
    (split_pages : list Z) (output_folder : string) : cmd unit :=
  print ("Attempting to read PDF: " +:+ input_pdf_path) ;;
  opened ← fitz_open e input_pdf_path ;
  match opened with
  | Raised err => print ("Error reading PDF file: " +:+ err) ;; return_
  | Ok doc =>
      total_pages ← len doc ;
      print ("Total pages in input PDF: " +:+ Py.str total_pages) ;;
      (if bool_decide (total_pages = 0)
       then print "Input PDF has no pages. Exiting." ;; return_
       else mret tt) ;;
      let split_pages := normalize split_pages in
      split_pages ←
        (if needs_adjusting total_pages split_pages
         then print "Warning: Invalid split points (must be 1 <= page < total_pages). Adjusting..." ;;
              mret (keep_in_bounds total_pages split_pages)
         else mret split_pages) ;
      (if bool_decide (split_pages = [])
       then print "No valid split points. Exiting." ;; close doc ;; return_
       else mret tt) ;;
      folder_exists ← path_exists output_folder ;
      (if negb folder_exists
       then makedirs e output_folder ;;
            print ("Created output folder: " +:+ output_folder)
       else mret tt) ;;
      let boundaries := boundaries total_pages split_pages in
      chunk_loop e doc output_folder boundaries ;;
      close doc ;;
      print "All chunks processed successfully!"
  end.

(** The world a call leaves behind. *)
Definition run (e : env) (input_pdf_path : string) (split_pages : list Z)
    (output_folder : string) (w : world) : world :=
  (split_pdf_by_pages e input_pdf_path split_pages output_folder w).2.

(** The world before anything was opened or written. *)
Definition empty_world : world := World [] ∅ ∅ [].

(** Lines 71-75: the entry point, with its hard-coded input path, number of
    prefix pages and chapter starts. *)
Definition input_pdf : string := "pdf_to_split.pdf".

Definition num_prefix_pages : Z := 29.

Definition my_split_pages : list Z :=
  (λ x, x + num_prefix_pages)
    <$> [3; 21; 77; 117; 163; 201; 231; 253; 303; 341; 363; 397; 431; 487; 519;
         561; 593; 657; 695; 743; 775; 835; 879; 907].

Definition main (e : env) : cmd unit :=
  split_pdf_by_pages e input_pdf my_split_pages default_output_folder.

(** ** Definitions used to state the properties *)

(** The pairs [(boundaries[i], boundaries[i+1])] the loop reads, in order,
    and the ones that pass the test of line 48 (the non-degenerate chunks). *)
Definition chunk_ranges (boundaries : list Z) : list (Z * Z) :=
  (λ chunk_idx : nat, (boundaries !!! chunk_idx, boundaries !!! (chunk_idx + 1)%nat))
    <$> seq 0 (length boundaries - 1).

Definition chunks (boundaries : list Z) : list (Z * Z) :=
  filter (λ c, c.1 < c.2) (chunk_ranges boundaries).

(** The 0-indexed pages of the chunk [start, end). *)
Definition chunk_pages (c : Z * Z) : list Z := Py.range c.1 c.2.

(** [occurs c s]: the character [c] occurs in [s]. *)
Fixpoint occurs (c : ascii) (s : string) : bool :=
  match s with
  | EmptyString => false
  | String c' s' => bool_decide (c' = c) || occurs c s'
  end.

(** The path under which the chunk [c] is saved, the document object the
    loop leaves behind for it, and the disk after saving a list of chunks. *)
Definition chunk_path (output_folder : string) (c : Z * Z) : string :=
  Py.path_join output_folder (chunk_name c.1 c.2).

Definition chunk_doc (c : Z * Z) : document := Document false (chunk_pages c).

Definition write_all (output_folder : string) (cs : list (Z * Z))
    (d : gmap string (list Z)) : gmap string (list Z) :=
  foldl (λ d c, <[chunk_path output_folder c := chunk_pages c]> d) d cs.

(** The folders after lines 38-40, when [os.makedirs] does not raise. *)
Definition ensure_folder (e : env) (output_folder : string) (w : world) : gset string :=
  if bool_decide (output_folder ∈ folders w) || bool_decide (is_Some (disk w !! output_folder))
  then folders w
  else {[output_folder]} ∪ list_to_set (makedirs_to e output_folder).1 ∪ folders w.

(** The folders after the saves of a list of chunks: a folder at the path of
    a saved chunk is gone. *)
Definition clear_targets (output_folder : string) (cs : list (Z * Z))
    (fs : gset string) : gset string :=
  foldl (λ fs c, fs ∖ {[chunk_path output_folder c]}) fs cs.

(** The folders and the disk after a save of the chunk [c] that raised. *)
Definition failed_folders (e : env) (output_folder : string) (c : Z * Z)
    (fs : gset string) : gset string :=
  match save_residue e (chunk_path output_folder c) with
  | None => fs
  | Some _ => fs ∖ {[chunk_path output_folder c]}
  end.

Definition failed_disk (e : env) (output_folder : string) (c : Z * Z)
    (d : gmap string (list Z)) : gmap string (list Z) :=
  match save_residue e (chunk_path output_folder c) with
  | None => d
  | Some residue => partial_alter (λ _, residue) (chunk_path output_folder c) d
  end.

(** Environments for concrete runs: a PDF of [n] pages at every path and
    [os.makedirs] creating the folder, with every save succeeding, or with
    the save to [bad] raising after it has removed what was there. *)
Definition env_ok (n : nat) : env :=
  Env (λ _, Ok n) (λ _, ([], None)) (λ _, None) (λ _, None).

Definition env_save_fails (n : nat) (bad : string) : env :=
  Env (λ _, Ok n) (λ _, ([], None))
      (λ path, if bool_decide (path = bad) then Some "cannot write" else None)
      (λ _, Some None).

(** An environment in which no PDF can be opened. *)
Definition env_unreadable : env :=
  Env (λ _, Raised "cannot open") (λ _, ([], None)) (λ _, None) (λ _, None).

(** An environment in which [os.makedirs] raises, as it does for the empty
    path. *)
Definition env_no_folder (n : nat) : env :=
  Env (λ _, Ok n) (λ _, ([], Some "No such file or directory"))
      (λ _, None) (λ _, None).

(** The input document is open at handle [doc] and has [n] pages. *)
Definition doc_ready (doc : nat) (n : Z) (w : world) : Prop :=
  handles w !! doc = Some (Document true (seqZ 0 n)).

(** The non-degenerate chunks of a document of [total_pages] pages for the
    requested [split_pages]. *)
Definition split_chunks (total_pages : Z) (split_pages : list Z) : list (Z * Z) :=
  chunks (boundaries total_pages (validate total_pages split_pages)).

(** The validation as the specification words it: keep, unconditionally, the
    normalised points [p] with [1 <= p < total_pages]. *)
Definition filter_unconditionally (total_pages : Z) (split_pages : list Z) : list Z :=
  filter (λ p, 1 ≤ p < total_pages) (normalize split_pages).

(** The console lines of the call, as the [print] statements build them:
    lines 15-40 up to the loop, lines 51-60 for a chunk that is saved, and
    lines 51-62 for a chunk whose save raises [err]. *)
Definition warning_line : string :=
  "Warning: Invalid split points (must be 1 <= page < total_pages). Adjusting...".

Definition success_line : string := "All chunks processed successfully!".

Definition no_valid_points_line : string := "No valid split points. Exiting.".

Definition opening_lines (input_pdf_path : string) (total_pages : Z)
    (split_pages : list Z) : list string :=
  ["Attempting to read PDF: " +:+ input_pdf_path;
   "Total pages in input PDF: " +:+ Py.str total_pages]
  ++ (if needs_adjusting total_pages (normalize split_pages) then [warning_line] else []).

Definition folder_lines (output_folder : string) (w : world) : list string :=
  if bool_decide (output_folder ∈ folders w) || bool_decide (is_Some (disk w !! output_folder))
  then []
  else ["Created output folder: " +:+ output_folder].

Definition saved_lines (output_folder : string) (c : Z * Z) : list string :=
  ["Processing chunk from page " +:+ Py.str (c.1 + 1) +:+ " to " +:+ Py.str c.2;
   "Attempting to write to: " +:+ chunk_path output_folder c;
   "Successfully wrote " +:+ chunk_path output_folder c].

Definition failed_lines (output_folder : string) (c : Z * Z) (err : string) : list string :=
  ["Processing chunk from page " +:+ Py.str (c.1 + 1) +:+ " to " +:+ Py.str c.2;
   "Attempting to write to: " +:+ chunk_path output_folder c;
   "Error writing PDF file " +:+ chunk_path output_folder c +:+ ": " +:+ err].

(** [os.path.exists(path)] as a property of a world. *)
Definition exists_on (w : world) (path : string) : Prop :=
  path ∈ folders w ∨ is_Some (disk w !! path).

(** The call gets past lines 38-40: the output folder exists, or
    [os.makedirs] creates it without raising. *)
Definition folder_ready (e : env) (w : world) (output_folder : string) : Prop :=
  exists_on w output_folder ∨ (makedirs_to e output_folder).2 = None.

(** * Properties *)

Example validate_21_77 : validate 100 [77; 21; 21] = [21; 77].
Proof. vm_compute. reflexivity. Qed.

Example chunk_name_0_21 : chunk_name 0 21 = "chunk_1_to_21.pdf".
Proof. vm_compute. reflexivity. Qed.

Example path_join_default :
  Py.path_join "output_chunks" (chunk_name 77 100) = "output_chunks/chunk_78_to_100.pdf".
Proof. vm_compute. reflexivity. Qed.

Example chunks_of_duplicate_point :
  chunk_path default_output_folder <$> split_chunks 100 [50; 50]
  = ["output_chunks/chunk_1_to_50.pdf"; "output_chunks/chunk_51_to_100.pdf"].
Proof. vm_compute. reflexivity. Qed.

Example out_of_range_points_dropped : validate 100 [0; 100] = [].
Proof. vm_compute. reflexivity. Qed.

Example failed_save_stops_the_run :
  stdout (run (env_save_fails 100 "output_chunks/chunk_22_to_77.pdf")
              "pdf_to_split.pdf" [21; 77] default_output_folder empty_world)
  = ["Attempting to read PDF: pdf_to_split.pdf";
     "Total pages in input PDF: 100";
     "Created output folder: output_chunks";
     "Processing chunk from page 1 to 21";
     "Attempting to write to: output_chunks/chunk_1_to_21.pdf";
     "Successfully wrote output_chunks/chunk_1_to_21.pdf";
     "Processing chunk from page 22 to 77";
     "Attempting to write to: output_chunks/chunk_22_to_77.pdf";
     "Error writing PDF file output_chunks/chunk_22_to_77.pdf: cannot write"].
Proof. vm_compute. reflexivity. Qed.

(** ** Normalisation *)

Section Normalize.

Lemma le_sorted_nodup_lt (l : list Z) :
  StronglySorted Z.le l → NoDup l → StronglySorted Z.lt l.
Proof.
  induction 1 as [|x l Hl IH Hx]; intros Hnd; [constructor|].
  apply NoDup_cons in Hnd as [Hnotin Hnd].
  constructor; [auto|].
  apply Forall_forall. intros y Hy.
  rewrite Forall_forall in Hx. specialize (Hx y Hy).
  assert (x ≠ y) by (intros ->; contradiction).
  lia.
Qed.

Lemma normalize_perm (l : list Z) : normalize l ≡ₚ elements (Py.set l).
Proof. apply merge_sort_Permutation. Qed.

Lemma elem_of_normalize (l : list Z) (x : Z) : x ∈ normalize l ↔ x ∈ l.
Proof.
  rewrite normalize_perm, elem_of_elements.
  unfold Py.set. apply elem_of_list_to_set.
Qed.

Lemma NoDup_normalize (l : list Z) : NoDup (normalize l).
Proof. rewrite normalize_perm. apply NoDup_elements. Qed.

Lemma normalize_sorted (l : list Z) : StronglySorted Z.lt (normalize l).
Proof.
  apply le_sorted_nodup_lt; [|apply NoDup_normalize].
  apply (StronglySorted_merge_sort Z.le).
Qed.

Lemma lt_sorted_unique (l1 l2 : list Z) :
  StronglySorted Z.lt l1 → StronglySorted Z.lt l2 →
  (∀ x, x ∈ l1 ↔ x ∈ l2) → l1 = l2.
Proof.
  intros H1 H2 Hin.
  apply (StronglySorted_unique_strong Z.lt); auto.
  - intros x y _ _ Hxy Hyx. lia.
  - apply NoDup_Permutation; auto.
    + clear -H1. induction H1 as [|x l _ IH Hx]; constructor; auto.
      intros Hin. rewrite Forall_forall in Hx. specialize (Hx x Hin). lia.
    + clear -H2. induction H2 as [|x l _ IH Hx]; constructor; auto.
      intros Hin. rewrite Forall_forall in Hx. specialize (Hx x Hin). lia.
Qed.

(** Equal sets of integers normalise to the same list. *)
Lemma normalize_ext (l1 l2 : list Z) :
  (∀ x, x ∈ l1 ↔ x ∈ l2) → normalize l1 = normalize l2.
Proof.
  intros Hin. unfold normalize.
  replace (Py.set l1) with (Py.set l2); [done|].
  apply set_eq. intros x. unfold Py.set.
  rewrite !elem_of_list_to_set. by rewrite Hin.
Qed.

Lemma normalize_idemp (l : list Z) : normalize (normalize l) = normalize l.
Proof. apply normalize_ext. intros x. apply elem_of_normalize. Qed.

End Normalize.

(** ** Validation *)

Section Validate.

Variable total_pages : Z.

Lemma in_bounds_spec (p : Z) : in_bounds total_pages p = true ↔ 1 ≤ p < total_pages.
Proof. unfold in_bounds. rewrite andb_true_iff, Z.leb_le, Z.ltb_lt. done. Qed.

Lemma sorted_ends_bound (l : list Z) (first final : Z) :
  StronglySorted Z.lt l → head l = Some first → last l = Some final →
  Forall (λ p, first ≤ p ≤ final) l.
Proof.
  intros Hs Hh Hl. apply Forall_forall. intros p Hp.
  apply head_Some in Hh as [tl ->].
  apply last_Some in Hl as [ini Hini].
  split.
  - apply StronglySorted_cons in Hs as [Hall _].
    apply elem_of_cons in Hp as [->|Hp]; [lia|].
    rewrite Forall_forall in Hall. specialize (Hall p Hp). lia.
  - rewrite Hini in Hs, Hp.
    apply StronglySorted_app in Hs as (Hcross & _ & _).
    apply elem_of_app in Hp as [Hp|Hp].
    + specialize (Hcross p final Hp). rewrite list_elem_of_singleton in Hcross.
      specialize (Hcross eq_refl). lia.
    + apply list_elem_of_singleton in Hp as ->. lia.
Qed.

(** When the guard of line 30 is false, a sorted list is within bounds
    throughout, and the filter of line 32 would have changed nothing. *)
Lemma guard_false_all_in_bounds (l : list Z) :
  StronglySorted Z.lt l → needs_adjusting total_pages l = false →
  Forall (λ p, in_bounds total_pages p = true) l.
Proof.
  intros Hs Hg. unfold needs_adjusting in Hg.
  destruct (head l) as [first|] eqn:Hh.
  - destruct (last l) as [final|] eqn:Hl.
    + apply orb_false_iff in Hg as [Hlo Hhi].
      apply Z.ltb_ge in Hlo. rewrite Z.geb_leb in Hhi. apply Z.leb_gt in Hhi.
      eapply Forall_impl; [apply (sorted_ends_bound l first final); done|].
      intros p Hp. apply in_bounds_spec. simpl in Hp. lia.
    + apply last_None in Hl as ->. constructor.
  - apply head_None in Hh as ->. constructor.
Qed.

Lemma keep_in_bounds_id (l : list Z) :
  Forall (λ p, in_bounds total_pages p = true) l → keep_in_bounds total_pages l = l.
Proof.
  unfold keep_in_bounds. induction 1 as [|x l Hx _ IH]; [done|].
  rewrite filter_cons_True by done. by rewrite IH.
Qed.

(** Conversely, a list within bounds throughout passes the guard. *)
Lemma all_in_bounds_guard_false (l : list Z) :
  Forall (λ p, in_bounds total_pages p = true) l →
  needs_adjusting total_pages l = false.
Proof.
  intros Hall. unfold needs_adjusting.
  destruct (head l) as [first|] eqn:Hh; [|done].
  destruct (last l) as [final|] eqn:Hl; [|done].
  rewrite Forall_forall in Hall.
  apply head_Some_elem_of, Hall, in_bounds_spec in Hh.
  apply last_Some_elem_of, Hall, in_bounds_spec in Hl.
  apply orb_false_iff. split; [apply Z.ltb_ge; lia|].
  rewrite Z.geb_leb. apply Z.leb_gt. lia.
Qed.

Lemma validate_filter (split_pages : list Z) :
  validate total_pages split_pages = keep_in_bounds total_pages (normalize split_pages).
Proof.
  unfold validate.
  destruct (needs_adjusting total_pages (normalize split_pages)) eqn:Hg; [done|].
  symmetry. apply keep_in_bounds_id, guard_false_all_in_bounds; [|done].
  apply normalize_sorted.
Qed.

Lemma elem_of_validate (split_pages : list Z) (p : Z) :
  p ∈ validate total_pages split_pages ↔ p ∈ split_pages ∧ 1 ≤ p < total_pages.
Proof.
  rewrite validate_filter. unfold keep_in_bounds.
  rewrite list_elem_of_filter, in_bounds_spec, elem_of_normalize. tauto.
Qed.

Lemma lt_sorted_filter (P : Z → Prop) `{∀ x, Decision (P x)} (l : list Z) :
  StronglySorted Z.lt l → StronglySorted Z.lt (filter P l).
Proof.
  induction 1 as [|x l _ IH Hx]; [constructor|].
  destruct (decide (P x)).
  - rewrite filter_cons_True by done. constructor; [done|].
    apply Forall_forall. intros y Hy. apply list_elem_of_filter in Hy as [_ Hy].
    rewrite Forall_forall in Hx. auto.
  - by rewrite filter_cons_False.
Qed.

Lemma validate_sorted (split_pages : list Z) :
  StronglySorted Z.lt (validate total_pages split_pages).
Proof.
  rewrite validate_filter. apply lt_sorted_filter, normalize_sorted.
Qed.

Lemma validate_in_bounds (split_pages : list Z) :
  Forall (λ p, 1 ≤ p < total_pages) (validate total_pages split_pages).
Proof.
  apply Forall_forall. intros p Hp. by apply elem_of_validate in Hp as [_ ?].
Qed.

Lemma validate_ext (l1 l2 : list Z) :
  (∀ x, x ∈ l1 ↔ x ∈ l2) → validate total_pages l1 = validate total_pages l2.
Proof. intros Hin. unfold validate. by rewrite (normalize_ext l1 l2). Qed.

End Validate.

(** ** Boundaries and chunks *)

Section Boundaries.

Lemma chunk_ranges_nil : chunk_ranges [] = [].
Proof. done. Qed.

Lemma chunk_ranges_singleton (x : Z) : chunk_ranges [x] = [].
Proof. done. Qed.

Lemma chunk_ranges_cons (x y : Z) (l : list Z) :
  chunk_ranges (x :: y :: l) = (x, y) :: chunk_ranges (y :: l).
Proof.
  unfold chunk_ranges. simpl length.
  replace (S (S (length l)) - 1)%nat with (S (length l)) by lia.
  replace (S (length l) - 1)%nat with (length l) by lia.
  rewrite <- cons_seq, fmap_cons. f_equal.
  rewrite <- fmap_S_seq, <- list_fmap_compose.
  apply list_fmap_ext. intros _ i _. done.
Qed.

Lemma length_chunk_ranges (b : list Z) :
  length (chunk_ranges b) = (length b - 1)%nat.
Proof. unfold chunk_ranges. by rewrite length_fmap, length_seq. Qed.

Lemma length_boundaries (total_pages : Z) (split_pages : list Z) :
  length (boundaries total_pages split_pages) = (length split_pages + 2)%nat.
Proof. unfold boundaries. simpl. rewrite length_app. simpl. lia. Qed.

Lemma boundaries_lt_sorted (total_pages : Z) (split_pages : list Z) :
  1 ≤ total_pages →
  StronglySorted Z.lt split_pages →
  Forall (λ p, 1 ≤ p < total_pages) split_pages →
  StronglySorted Z.lt (boundaries total_pages split_pages).
Proof.
  intros Htotal Hs Hb. unfold boundaries. simpl.
  rewrite Forall_forall in Hb.
  apply StronglySorted_cons. split.
  - apply Forall_app. split.
    + apply Forall_forall. intros p Hp. specialize (Hb p Hp). lia.
    + apply Forall_singleton. lia.
  - apply StronglySorted_app. split_and!.
    + intros p q Hp Hq. apply list_elem_of_singleton in Hq as ->.
      specialize (Hb p Hp). lia.
    + done.
    + repeat constructor.
Qed.

Lemma lt_sorted_le_sorted (l : list Z) :
  StronglySorted Z.lt l → StronglySorted Z.le l.
Proof.
  induction 1 as [|x l _ IH Hx]; constructor; [done|].
  eapply Forall_impl; [done|]. simpl. lia.
Qed.

(** On strictly increasing boundaries the test of line 48 never holds. *)
Lemma lt_sorted_chunk_ranges (b : list Z) :
  StronglySorted Z.lt b → Forall (λ c, c.1 < c.2) (chunk_ranges b).
Proof.
  induction 1 as [|x l Hl IH Hx]; [constructor|].
  destruct l as [|y l]; [constructor|].
  rewrite chunk_ranges_cons. constructor; [|done].
  simpl. by apply Forall_cons in Hx as [? _].
Qed.

Lemma lt_sorted_chunks (b : list Z) :
  StronglySorted Z.lt b → chunks b = chunk_ranges b.
Proof.
  intros Hs. unfold chunks.
  induction (lt_sorted_chunk_ranges b Hs) as [|c cs Hc _ IH]; [done|].
  rewrite filter_cons_True by done. by rewrite IH.
Qed.

(** The pages of the non-degenerate chunks of a non-decreasing list, put
    end to end, are the pages from its first to its last entry. *)
Lemma chunks_concat (x : Z) (l : list Z) :
  StronglySorted Z.le (x :: l) →
  concat (chunk_pages <$> chunks (x :: l)) = Py.range x (default x (last (x :: l))).
Proof.
  revert x. induction l as [|y l IH]; intros x Hs.
  - simpl. unfold Py.range. by rewrite seqZ_nil by lia.
  - apply StronglySorted_cons in Hs as [Hx Hs].
    assert (x ≤ y) by (by apply Forall_cons in Hx as [? _]).
    assert (y ≤ default y (last (y :: l))) as Hlast.
    { destruct (last (y :: l)) as [z|] eqn:Hz; [|simpl; lia].
      simpl. apply last_Some_elem_of in Hz.
      apply elem_of_cons in Hz as [->|Hz]; [lia|].
      apply StronglySorted_cons in Hs as [Hy _].
      rewrite Forall_forall in Hy. by apply Hy. }
    specialize (IH y Hs).
    rewrite last_cons_cons.
    replace (default x (last (y :: l))) with (default y (last (y :: l)))
      by (destruct (last (y :: l)) eqn:E; [done|by apply last_None in E]).
    set (z := default y (last (y :: l))) in *.
    unfold chunks in *. rewrite chunk_ranges_cons.
    unfold Py.range in *.
    replace (z - x) with ((y - x) + (z - y)) by lia.
    rewrite seqZ_app by lia. replace (x + (y - x)) with y by lia.
    rewrite <- IH.
    destruct (decide (x < y)).
    + rewrite filter_cons_True by done. done.
    + rewrite filter_cons_False by done.
      rewrite (seqZ_nil x) by lia. done.
Qed.

Lemma elem_of_chunk_ranges (b : list Z) (c : Z * Z) :
  c ∈ chunk_ranges b → c.1 ∈ b ∧ c.2 ∈ b.
Proof.
  induction b as [|x [|y l] IH]; [by intros ?%elem_of_nil..|].
  rewrite chunk_ranges_cons. intros [->|Hc]%elem_of_cons.
  - simpl. split; [left|right; left].
  - destruct (IH Hc). split; by right.
Qed.

Lemma lt_sorted_chunk_ranges_NoDup (b : list Z) :
  StronglySorted Z.lt b → NoDup (chunk_ranges b).
Proof.
  induction 1 as [|x l Hl IH Hx]; [constructor|].
  destruct l as [|y l]; [constructor|].
  rewrite chunk_ranges_cons. constructor; [|done].
  intros [Hin _]%elem_of_chunk_ranges. simpl in Hin.
  rewrite Forall_forall in Hx. specialize (Hx x Hin). lia.
Qed.

Lemma elem_of_chunk_pages (c : Z * Z) (page : Z) :
  page ∈ chunk_pages c ↔ c.1 ≤ page < c.2.
Proof. unfold chunk_pages, Py.range. rewrite elem_of_seqZ. lia. Qed.

(** Along strictly increasing boundaries each range ends where the next
    begins, so a later range starts no earlier than an earlier one ends. *)
Lemma lt_sorted_chunk_ranges_ordered (b : list Z) :
  StronglySorted Z.lt b → StronglySorted (λ c c', c.2 ≤ c'.1) (chunk_ranges b).
Proof.
  induction 1 as [|x l Hl IH Hx]; [constructor|].
  destruct l as [|y l]; [constructor|].
  rewrite chunk_ranges_cons. constructor; [done|].
  apply Forall_forall. intros c' [Hin _]%elem_of_chunk_ranges. simpl.
  apply elem_of_cons in Hin as [->|Hin]; [lia|].
  apply StronglySorted_cons in Hl as [Hy _].
  rewrite Forall_forall in Hy. specialize (Hy _ Hin). lia.
Qed.

Lemma ordered_ranges_disjoint (cs : list (Z * Z)) (c c' : Z * Z) (page : Z) :
  StronglySorted (λ c c', c.2 ≤ c'.1) cs →
  c ∈ cs → c' ∈ cs →
  c.1 ≤ page < c.2 → c'.1 ≤ page < c'.2 → c = c'.
Proof.
  induction 1 as [|c0 cs _ IH Hc0]; [by intros ?%elem_of_nil|].
  rewrite Forall_forall in Hc0.
  intros [->|Hc]%elem_of_cons [->|Hc']%elem_of_cons Hp Hp'.
  - done.
  - specialize (Hc0 _ Hc'). lia.
  - specialize (Hc0 _ Hc). lia.
  - by apply IH.
Qed.

Section SplitChunks.

Variables (total_pages : Z) (split_pages : list Z).
Hypothesis Htotal : 1 ≤ total_pages.

Lemma split_boundaries_sorted :
  StronglySorted Z.lt (boundaries total_pages (validate total_pages split_pages)).
Proof.
  apply boundaries_lt_sorted;
    [done|apply validate_sorted|apply validate_in_bounds].
Qed.

Lemma split_chunks_ranges :
  split_chunks total_pages split_pages
  = chunk_ranges (boundaries total_pages (validate total_pages split_pages)).
Proof. apply lt_sorted_chunks, split_boundaries_sorted. Qed.

Lemma length_split_chunks :
  length (split_chunks total_pages split_pages)
  = (length (validate total_pages split_pages) + 1)%nat.
Proof.
  rewrite split_chunks_ranges, length_chunk_ranges, length_boundaries. lia.
Qed.

Lemma NoDup_split_chunks : NoDup (split_chunks total_pages split_pages).
Proof.
  rewrite split_chunks_ranges.
  apply lt_sorted_chunk_ranges_NoDup, split_boundaries_sorted.
Qed.

Lemma split_chunks_within :
  Forall (λ c, 0 ≤ c.1 ∧ c.1 < c.2 ∧ c.2 ≤ total_pages)
    (split_chunks total_pages split_pages).
Proof.
  apply Forall_forall. intros c Hc.
  assert (∀ p, p ∈ boundaries total_pages (validate total_pages split_pages) →
               0 ≤ p ≤ total_pages) as Hb.
  { intros p. unfold boundaries. simpl.
    rewrite elem_of_cons, elem_of_app, list_elem_of_singleton, elem_of_validate.
    lia. }
  pose proof Hc as Hc'. rewrite split_chunks_ranges in Hc'.
  apply elem_of_chunk_ranges in Hc' as [H1 H2].
  apply Hb in H1, H2.
  unfold split_chunks, chunks in Hc. apply list_elem_of_filter in Hc as [Hlt _].
  lia.
Qed.

End SplitChunks.

End Boundaries.

(** ** File names *)

Section Names.

Lemma split_at_char (c : ascii) (a a' r r' : string) :
  occurs c a = false → occurs c a' = false →
  a +:+ String c r = a' +:+ String c r' → a = a' ∧ r = r'.
Proof.
  revert a'. induction a as [|x a IH]; intros [|x' a'] Ha Ha' Heq; simpl in *.
  - by injection Heq as ->.
  - injection Heq as <- _. apply orb_false_iff in Ha' as [Hx _].
    by rewrite bool_decide_eq_false in Hx.
  - injection Heq as -> _. apply orb_false_iff in Ha as [Hx _].
    by rewrite bool_decide_eq_false in Hx.
  - injection Heq as -> Heq.
    apply orb_false_iff in Ha as [_ Ha]. apply orb_false_iff in Ha' as [_ Ha'].
    destruct (IH a' Ha Ha' Heq) as [-> ->]. done.
Qed.

Lemma digits_no_punct (c : ascii) (d : uint) :
  c = "_"%char ∨ c = "."%char →
  occurs c (NilEmpty.string_of_uint d) = false.
Proof.
  intros Hc. induction d; simpl; [done|..];
    rewrite IHd, orb_false_r; apply bool_decide_eq_false;
    destruct Hc as [-> | ->]; discriminate.
Qed.

Lemma str_no_punct (c : ascii) (n : Z) :
  c = "_"%char ∨ c = "."%char → occurs c (Py.str n) = false.
Proof.
  intros Hc. unfold Py.str, NilZero.string_of_int, NilZero.string_of_uint.
  assert (occurs c "0" = false) as H0.
  { simpl. rewrite orb_false_r. apply bool_decide_eq_false.
    destruct Hc as [-> | ->]; discriminate. }
  destruct (Z.to_int n) as [d|d].
  - destruct d; try done; by apply (digits_no_punct c).
  - simpl. apply orb_false_iff. split.
    + apply bool_decide_eq_false. destruct Hc as [-> | ->]; discriminate.
    + destruct d; try done; by apply (digits_no_punct c).
Qed.

Lemma to_int_not_nil (n : Z) : Z.to_int n ≠ Pos Nil ∧ Z.to_int n ≠ Neg Nil.
Proof.
  destruct n as [|p|p]; simpl; split; try discriminate;
    intros [= H]; by apply (DecimalPos.Unsigned.to_uint_nonnil p).
Qed.

Global Instance str_inj : Inj (=) (=) Py.str.
Proof.
  intros a b Heq. unfold Py.str in Heq.
  destruct (to_int_not_nil a) as [Ha1 Ha2], (to_int_not_nil b) as [Hb1 Hb2].
  pose proof (NilZero.isi _ Ha1 Ha2) as Ia.
  pose proof (NilZero.isi _ Hb1 Hb2) as Ib.
  rewrite Heq, Ib in Ia. injection Ia as Hab.
  rewrite <- (DecimalZ.of_to a), <- (DecimalZ.of_to b). by rewrite Hab.
Qed.

Lemma chunk_name_inj (s e s' e' : Z) :
  chunk_name s e = chunk_name s' e' → s = s' ∧ e = e'.
Proof.
  unfold chunk_name. simpl. intros [= Heq].
  apply (split_at_char "_") in Heq as [Hs Heq];
    [|apply str_no_punct; by left..].
  injection Heq as Heq.
  apply (split_at_char ".") in Heq as [He _];
    [|apply str_no_punct; by right..].
  apply str_inj in Hs. apply str_inj in He. split; [lia|done].
Qed.

Lemma path_join_chunk_inj (output_folder : string) (s e s' e' : Z) :
  Py.path_join output_folder (chunk_name s e)
  = Py.path_join output_folder (chunk_name s' e') →
  s = s' ∧ e = e'.
Proof.
  unfold Py.path_join.
  replace (Py.starts_with_slash (chunk_name s e)) with false by done.
  replace (Py.starts_with_slash (chunk_name s' e')) with false by done.
  destruct (bool_decide (output_folder = "") || Py.ends_with_slash output_folder);
    intros Heq.
  - apply (inj (String.app output_folder)) in Heq. by apply chunk_name_inj.
  - apply (inj (String.app output_folder)) in Heq.
    apply (inj (String.app "/")) in Heq. by apply chunk_name_inj.
Qed.

Global Instance chunk_path_inj (output_folder : string) :
  Inj (=) (=) (chunk_path output_folder).
Proof.
  intros [s t] [s' t'] Heq. unfold chunk_path in Heq. simpl in Heq.
  apply path_join_chunk_inj in Heq as [-> ->]. done.
Qed.

Lemma write_all_snoc (output_folder : string) (cs : list (Z * Z)) (c : Z * Z)
    (d : gmap string (list Z)) :
  write_all output_folder (cs ++ [c]) d
  = <[chunk_path output_folder c := chunk_pages c]> (write_all output_folder cs d).
Proof. unfold write_all. by rewrite foldl_app. Qed.

(** Saving touches the paths of the saved chunks only. *)
Lemma write_all_lookup_other (output_folder : string) (cs : list (Z * Z))
    (d : gmap string (list Z)) (path : string) :
  path ∉ chunk_path output_folder <$> cs →
  write_all output_folder cs d !! path = d !! path.
Proof.
  induction cs as [|c cs IH] using rev_ind; [done|].
  rewrite fmap_app, not_elem_of_app. intros [Hcs Hc].
  rewrite write_all_snoc, lookup_insert_ne; [by apply IH|].
  intros <-. apply Hc. simpl. left.
Qed.

(** Distinct chunks are saved under distinct paths, so each saved chunk is
    found on disk with its own pages. *)
Lemma write_all_lookup (output_folder : string) (cs : list (Z * Z))
    (d : gmap string (list Z)) (c : Z * Z) :
  NoDup cs → c ∈ cs →
  write_all output_folder cs d !! chunk_path output_folder c = Some (chunk_pages c).
Proof.
  induction cs as [|c' cs IH] using rev_ind; [by intros _ ?%elem_of_nil|].
  rewrite NoDup_app. intros (Hnd & Hdisj & _) Hin.
  rewrite write_all_snoc.
  apply elem_of_app in Hin as [Hin|Hin%list_elem_of_singleton].
  - rewrite lookup_insert_ne; [by apply IH|].
    intros Heq%(inj _). subst c'. apply (Hdisj c Hin). left.
  - subst c'. by rewrite lookup_insert_eq.
Qed.

End Names.

(** ** The loop *)

Section Loop.

Variables (e : env) (doc : nat) (output_folder : string) (n : Z).

Local Abbreviation doc_ready := (doc_ready doc n).
Local Abbreviation body := (λ c : Z * Z, chunk_body e doc output_folder c.1 c.2).

Lemma copied_pages (s t : Z) :
  0 ≤ s → s < t → t ≤ n →
  take (Z.to_nat (t - 1 - s + 1)) (drop (Z.to_nat s) (seqZ 0 n)) = seqZ s (t - s).
Proof.
  intros Hs Hst Ht.
  replace n with (s + ((t - s) + (n - t))) by lia.
  rewrite seqZ_app by lia. rewrite drop_app_length' by (rewrite length_seqZ; lia).
  rewrite Z.add_0_l, seqZ_app by lia.
  apply take_app_length'. rewrite length_seqZ. lia.
Qed.

Lemma chunk_body_skip (s t : Z) (w : world) :
  s >= t → chunk_body e doc output_folder s t w = (Next tt, w).
Proof. intros H. unfold chunk_body. by rewrite bool_decide_eq_true_2. Qed.

Lemma alter_snoc {A} (f : A → A) (l : list A) (x : A) :
  alter f (length l) (l ++ [x]) = l ++ [f x].
Proof.
  rewrite <- (Nat.add_0_r (length l)) at 1. by rewrite alter_app_r.
Qed.

Lemma doc_ready_snoc (w : world) (d : document) :
  doc_ready w → (handles w ++ [d]) !! doc = Some (Document true (seqZ 0 n)).
Proof. intros H. by apply lookup_app_l_Some. Qed.

Ltac run_body Hdoc Hsave :=
  unfold mbind, cmd_bind, print, fitz_new, insert_pdf, save, close, return_,
    set_handles, set_disk;
  simpl; unfold chunk_path in Hsave; simpl in Hsave; rewrite Hsave; simpl;
  rewrite (doc_ready_snoc _ _ Hdoc); simpl;
  rewrite copied_pages by done;
  rewrite ?alter_snoc; simpl;
  rewrite ?list_lookup_middle by done; simpl;
  rewrite <- ?(assoc_L (++)).

Lemma chunk_body_saved (c : Z * Z) (w : world) :
  doc_ready w → 0 ≤ c.1 → c.1 < c.2 → c.2 ≤ n →
  save_to e (chunk_path output_folder c) = None →
  ∃ out,
    chunk_body e doc output_folder c.1 c.2 w
    = (Next tt,
       World (handles w ++ [chunk_doc c])
             (folders w ∖ {[chunk_path output_folder c]})
             (<[chunk_path output_folder c := chunk_pages c]> (disk w))
             (stdout w ++ out)).
Proof.
  destruct c as [s t]. simpl. intros Hdoc Hs Hst Ht Hsave.
  unfold chunk_body. rewrite bool_decide_eq_false_2 by lia.
  eexists. run_body Hdoc Hsave. done.
Qed.

Lemma chunk_body_failed (c : Z * Z) (err : string) (w : world) :
  doc_ready w → 0 ≤ c.1 → c.1 < c.2 → c.2 ≤ n →
  save_to e (chunk_path output_folder c) = Some err →
  ∃ out,
    chunk_body e doc output_folder c.1 c.2 w
    = (Returned,
       World (alter closed doc (handles w) ++ [chunk_doc c])
             (failed_folders e output_folder c (folders w))
             (failed_disk e output_folder c (disk w))
             (stdout w ++ out)).
Proof.
  destruct c as [s t]. simpl. intros Hdoc Hs Hst Ht Hsave.
  unfold chunk_body. rewrite bool_decide_eq_false_2 by lia.
  unfold failed_folders, failed_disk, chunk_path. simpl.
  eexists. run_body Hdoc Hsave.
  destruct (save_residue e _); simpl;
    rewrite ?alter_snoc; simpl;
    rewrite alter_app_l by (by eapply lookup_lt_Some);
    rewrite <- ?(assoc_L (++)); done.
Qed.

Lemma chunk_loop_ranges (b : list Z) (w : world) :
  chunk_loop e doc output_folder b w = for_each (chunk_ranges b) body w.
Proof.
  unfold chunk_loop, chunk_ranges. revert w.
  induction (seq 0 (length b - 1)) as [|i idxs IH]; intros w; [done|].
  simpl. unfold mbind, cmd_bind.
  destruct (chunk_body _ _ _ _ _ w) as [[[]| |err] w']; [apply IH|done..].
Qed.

(** Degenerate ranges leave no trace: the loop acts as a loop over the
    non-degenerate chunks. *)
Lemma for_each_chunks (rs : list (Z * Z)) (w : world) :
  for_each rs body w = for_each (filter (λ c, c.1 < c.2) rs) body w.
Proof.
  revert w. induction rs as [|c rs IH]; intros w; [done|].
  destruct (decide (c.1 < c.2)).
  - rewrite filter_cons_True by done. simpl. unfold mbind, cmd_bind.
    destruct (chunk_body _ _ _ _ _ w) as [[[]| |err] w']; [apply IH|done..].
  - rewrite filter_cons_False by done. simpl. unfold mbind, cmd_bind.
    rewrite chunk_body_skip by lia. apply IH.
Qed.

Lemma loop_all_saved (cs : list (Z * Z)) (w : world) :
  doc_ready w →
  Forall (λ c, 0 ≤ c.1 ∧ c.1 < c.2 ∧ c.2 ≤ n) cs →
  Forall (λ c, save_to e (chunk_path output_folder c) = None) cs →
  ∃ out,
    for_each cs body w
    = (Next tt,
       World (handles w ++ (chunk_doc <$> cs))
             (clear_targets output_folder cs (folders w))
             (write_all output_folder cs (disk w)) (stdout w ++ out)).
Proof.
  intros Hdoc Hin. revert w Hdoc.
  induction Hin as [|c cs (H0 & Hlt & Hn) _ IH]; intros w Hdoc Hok.
  - exists []. destruct w. simpl. by rewrite !(right_id_L [] (++)).
  - apply Forall_cons in Hok as [Hc Hok].
    destruct (chunk_body_saved c w Hdoc H0 Hlt Hn Hc) as [out1 E1].
    simpl. unfold mbind, cmd_bind. rewrite E1.
    match goal with |- context [for_each cs _ ?w1] =>
      destruct (IH w1) as [out2 E2]; [by apply lookup_app_l_Some|done|] end.
    rewrite E2. simpl. exists (out1 ++ out2).
    by rewrite <- !(assoc_L (++)).
Qed.

Lemma loop_failed (pre post : list (Z * Z)) (c : Z * Z) (err : string) (w : world) :
  doc_ready w →
  Forall (λ c, 0 ≤ c.1 ∧ c.1 < c.2 ∧ c.2 ≤ n) (pre ++ [c]) →
  Forall (λ c, save_to e (chunk_path output_folder c) = None) pre →
  save_to e (chunk_path output_folder c) = Some err →
  ∃ out,
    for_each (pre ++ c :: post) body w
    = (Returned,
       World (alter closed doc (handles w) ++ (chunk_doc <$> pre ++ [c]))
             (failed_folders e output_folder c
                (clear_targets output_folder pre (folders w)))
             (failed_disk e output_folder c
                (write_all output_folder pre (disk w)))
             (stdout w ++ out)).
Proof.
  intros Hdoc Hin Hok Hbad. revert w Hdoc.
  induction pre as [|p pre IH]; intros w Hdoc.
  - apply Forall_singleton in Hin as (H0 & Hlt & Hn).
    destruct (chunk_body_failed c err w Hdoc H0 Hlt Hn Hbad) as [out E].
    simpl. unfold mbind, cmd_bind. rewrite E. by exists out.
  - simpl in Hin. apply Forall_cons in Hin as [(H0 & Hlt & Hn) Hin].
    apply Forall_cons in Hok as [Hp Hok].
    destruct (chunk_body_saved p w Hdoc H0 Hlt Hn Hp) as [out1 E1].
    simpl. unfold mbind, cmd_bind. rewrite E1.
    match goal with |- context [for_each _ _ ?w1] =>
      destruct (IH Hin Hok w1) as [out2 E2]; [by apply lookup_app_l_Some|] end.
    rewrite E2. simpl. exists (out1 ++ out2).
    rewrite alter_app_l by (by eapply lookup_lt_Some).
    by rewrite <- !(assoc_L (++)).
Qed.

End Loop.

(** ** The whole call, path by path *)

Lemma exists_on_true (w : world) (path : string) :
  bool_decide (path ∈ folders w) || bool_decide (is_Some (disk w !! path)) = true
  ↔ exists_on w path.
Proof.
  unfold exists_on. rewrite orb_true_iff, !bool_decide_eq_true. done.
Qed.

Lemma exists_on_false (w : world) (path : string) :
  bool_decide (path ∈ folders w) || bool_decide (is_Some (disk w !! path)) = false
  ↔ ¬ exists_on w path.
Proof. rewrite <- exists_on_true. by destruct (_ || _). Qed.

Section Run.

Variables (e : env) (input_pdf_path : string) (split_pages : list Z)
  (output_folder : string) (w : world).

Local Abbreviation split := (split_pdf_by_pages e input_pdf_path split_pages output_folder).

Ltac run_prelude Hpdf :=
  unfold split_pdf_by_pages, mbind, cmd_bind, mret, cmd_ret, print, fitz_open, len,
    close, return_, path_exists, makedirs, set_handles, set_folders;
  simpl; rewrite Hpdf; simpl;
  rewrite list_lookup_middle by done; simpl;
  rewrite ?length_seqZ, ?Nat2Z.id.

(** Line 20-22: the PDF cannot be opened. *)
Lemma run_open_failed (err : string) :
  pdf_at e input_pdf_path = Raised err →
  ∃ out, split w = (Returned, World (handles w) (folders w) (disk w) (stdout w ++ out)).
Proof.
  intros Hpdf. eexists.
  unfold split_pdf_by_pages, mbind, cmd_bind, print, fitz_open, return_.
  simpl. rewrite Hpdf. simpl. rewrite <- !(assoc_L (++)). done.
Qed.

(** Line 24-26: the PDF has no pages. *)
Lemma run_empty_document :
  pdf_at e input_pdf_path = Ok 0%nat →
  ∃ out,
    split w = (Returned,
               World (handles w ++ [Document true []]) (folders w) (disk w)
                     (stdout w ++ out)).
Proof.
  intros Hpdf. eexists. run_prelude Hpdf.
  rewrite <- !(assoc_L (++)). done.
Qed.

Section NonEmpty.

Variable n : nat.
Hypothesis Hpdf : pdf_at e input_pdf_path = Ok n.
Hypothesis Hn : n ≠ 0%nat.

Local Abbreviation total_pages := (Z.of_nat n).
Local Abbreviation doc := (length (handles w)).

Ltac run_validate :=
  run_prelude Hpdf;
  rewrite bool_decide_eq_false_2 by lia;
  unfold validate;
  destruct (needs_adjusting total_pages (normalize split_pages)); simpl.

(** Line 33-36: no split point is within bounds. *)
Lemma run_no_valid_points :
  validate total_pages split_pages = [] →
  ∃ out,
    split w = (Returned,
               World (handles w ++ [Document false (seqZ 0 total_pages)])
                     (folders w) (disk w) (stdout w ++ out)).
Proof.
  run_validate; intros ->; simpl; rewrite alter_snoc;
    eexists; rewrite <- !(assoc_L (++)); done.
Qed.

(** Line 39: the folder is missing and [os.makedirs] raises.  The exception
    leaves the function, with the input document open. *)
Lemma run_makedirs_raised (err : string) :
  validate total_pages split_pages ≠ [] →
  ¬ exists_on w output_folder →
  (makedirs_to e output_folder).2 = Some err →
  ∃ out,
    split w
    = (Escaped err,
       World (handles w ++ [Document true (seqZ 0 total_pages)])
             (list_to_set (makedirs_to e output_folder).1 ∪ folders w)
             (disk w) (stdout w ++ out)).
Proof.
  intros Hne Hmissing%exists_on_false Hraise. revert Hne.
  destruct (makedirs_to e output_folder) as [parents answer] eqn:Hmade.
  simpl in Hraise. subst answer.
  run_validate; intros Hne; rewrite bool_decide_eq_false_2 by done; simpl;
    rewrite Hmissing, Hmade; simpl; eexists; rewrite <- ?(assoc_L (++)); done.
Qed.

(** Lines 38-43: otherwise the call reaches the loop with the document open,
    the output folder in place and the disk untouched. *)
Lemma run_reaches_loop :
  validate total_pages split_pages ≠ [] →
  folder_ready e w output_folder →
  ∃ out,
    split w
    = (chunk_loop e doc output_folder
         (boundaries total_pages (validate total_pages split_pages)) ;;
       close doc ;;
       print "All chunks processed successfully!")
        (World (handles w ++ [Document true (seqZ 0 total_pages)])
               (ensure_folder e output_folder w) (disk w) (stdout w ++ out)).
Proof.
  intros Hne Hready. revert Hne.
  unfold ensure_folder.
  destruct (bool_decide (output_folder ∈ folders w)
            || bool_decide (is_Some (disk w !! output_folder))) eqn:Hex.
  - run_validate; intros Hne; rewrite bool_decide_eq_false_2 by done; simpl;
      rewrite Hex; simpl; eexists; rewrite <- ?(assoc_L (++)); done.
  - apply exists_on_false in Hex as Hmissing.
    destruct Hready as [?|Hnone]; [done|].
    destruct (makedirs_to e output_folder) as [parents answer] eqn:Hmade.
    simpl in Hnone. subst answer.
    run_validate; intros Hne; rewrite bool_decide_eq_false_2 by done; simpl;
      rewrite Hex, Hmade; simpl; eexists; rewrite <- ?(assoc_L (++)); done.
Qed.

Local Abbreviation cs := (split_chunks total_pages split_pages).

Lemma loop_is_over_split_chunks (w' : world) :
  chunk_loop e doc output_folder
    (boundaries total_pages (validate total_pages split_pages)) w'
  = for_each cs (λ c, chunk_body e doc output_folder c.1 c.2) w'.
Proof. rewrite chunk_loop_ranges. apply for_each_chunks. Qed.

(** Line 67-68: every save succeeds. *)
Lemma run_all_saved :
  validate total_pages split_pages ≠ [] →
  folder_ready e w output_folder →
  Forall (λ c, save_to e (chunk_path output_folder c) = None) cs →
  ∃ out,
    split w
    = (Next tt,
       World (handles w ++ Document false (seqZ 0 total_pages) :: (chunk_doc <$> cs))
             (clear_targets output_folder cs (ensure_folder e output_folder w))
             (write_all output_folder cs (disk w))
             (stdout w ++ out)).
Proof.
  intros Hne Hready Hok. destruct (run_reaches_loop Hne Hready) as [out0 ->].
  unfold mbind at 1. unfold cmd_bind at 1.
  rewrite loop_is_over_split_chunks.
  edestruct (loop_all_saved e doc output_folder total_pages cs) as [out1 ->];
    [..|done|].
  { unfold doc_ready. simpl. by apply list_lookup_middle. }
  { apply split_chunks_within. lia. }
  unfold mbind, cmd_bind, close, print, set_handles. simpl.
  rewrite alter_app_l by (rewrite length_app; simpl; lia).
  rewrite alter_snoc. simpl.
  exists (out0 ++ out1 ++ ["All chunks processed successfully!"]).
  by rewrite <- !(assoc_L (++)).
Qed.

(** Line 61-65: the saves of [pre] succeed and the save of [c] raises. *)
Lemma run_save_failed (pre post : list (Z * Z)) (c : Z * Z) (err : string) :
  validate total_pages split_pages ≠ [] →
  folder_ready e w output_folder →
  cs = pre ++ c :: post →
  Forall (λ c, save_to e (chunk_path output_folder c) = None) pre →
  save_to e (chunk_path output_folder c) = Some err →
  ∃ out,
    split w
    = (Returned,
       World (handles w ++ Document false (seqZ 0 total_pages)
                             :: (chunk_doc <$> pre ++ [c]))
             (failed_folders e output_folder c
                (clear_targets output_folder pre (ensure_folder e output_folder w)))
             (failed_disk e output_folder c (write_all output_folder pre (disk w)))
             (stdout w ++ out)).
Proof.
  intros Hne Hready Hcs Hok Hbad. destruct (run_reaches_loop Hne Hready) as [out0 ->].
  unfold mbind at 1. unfold cmd_bind at 1.
  rewrite loop_is_over_split_chunks, Hcs.
  edestruct (loop_failed e doc output_folder total_pages pre post c) as [out1 ->];
    [..|done|done|].
  { unfold doc_ready. simpl. by apply list_lookup_middle. }
  { pose proof (split_chunks_within total_pages split_pages ltac:(lia)) as Hin.
    rewrite Hcs in Hin. change (c :: post) with ([c] ++ post) in Hin.
    rewrite (assoc_L (++)) in Hin. by apply Forall_app in Hin as [? _]. }
  simpl. rewrite alter_snoc. simpl.
  exists (out0 ++ out1). by rewrite <- !(assoc_L (++)).
Qed.

End NonEmpty.

End Run.

(** ** Folders and files after the saves *)

Section Disk.

Variable output_folder : string.

Lemma clear_targets_snoc (cs : list (Z * Z)) (c : Z * Z) (fs : gset string) :
  clear_targets output_folder (cs ++ [c]) fs
  = clear_targets output_folder cs fs ∖ {[chunk_path output_folder c]}.
Proof. unfold clear_targets. by rewrite foldl_app. Qed.

(** The saves of a list of chunks remove the folders at their paths and no
    other. *)
Lemma elem_of_clear_targets (cs : list (Z * Z)) (fs : gset string) (path : string) :
  path ∈ clear_targets output_folder cs fs
  ↔ path ∈ fs ∧ path ∉ chunk_path output_folder <$> cs.
Proof.
  induction cs as [|c cs IH] using rev_ind.
  - simpl. rewrite elem_of_nil. tauto.
  - rewrite clear_targets_snoc, elem_of_difference, IH, fmap_app, not_elem_of_app.
    rewrite elem_of_singleton. simpl. rewrite not_elem_of_cons, elem_of_nil. tauto.
Qed.

Lemma elem_of_failed_folders (e : env) (c : Z * Z) (fs : gset string) (path : string) :
  (path ∈ failed_folders e output_folder c fs → path ∈ fs)
  ∧ (path ∈ fs → path ≠ chunk_path output_folder c →
     path ∈ failed_folders e output_folder c fs).
Proof.
  unfold failed_folders. destruct (save_residue e _); [|done].
  rewrite elem_of_difference, elem_of_singleton. tauto.
Qed.

(** A save that raises leaves every path but its target as it was. *)
Lemma failed_disk_lookup_ne (e : env) (c : Z * Z) (d : gmap string (list Z))
    (path : string) :
  path ≠ chunk_path output_folder c →
  failed_disk e output_folder c d !! path = d !! path.
Proof.
  intros Hne. unfold failed_disk. destruct (save_residue e _); [|done].
  by rewrite lookup_partial_alter_ne.
Qed.

Lemma write_all_is_Some (cs : list (Z * Z)) (d : gmap string (list Z)) (path : string) :
  is_Some (d !! path) → is_Some (write_all output_folder cs d !! path).
Proof.
  induction cs as [|c cs IH] using rev_ind; [done|].
  intros Hd. rewrite write_all_snoc.
  destruct (decide (chunk_path output_folder c = path)) as [<-|Hne].
  - rewrite lookup_insert_eq. by eexists.
  - rewrite lookup_insert_ne by done. by apply IH.
Qed.

(** Every path either keeps the content it had or is the path of a saved
    chunk and holds the pages of that chunk. *)
Lemma write_all_lookup_cases (cs : list (Z * Z)) (d : gmap string (list Z))
    (path : string) :
  NoDup cs →
  write_all output_folder cs d !! path = d !! path
  ∨ ∃ c, c ∈ cs ∧ path = chunk_path output_folder c
         ∧ write_all output_folder cs d !! path = Some (chunk_pages c).
Proof.
  intros Hnd.
  destruct (decide (path ∈ chunk_path output_folder <$> cs)) as [Hin|Hout].
  - right. apply list_elem_of_fmap in Hin as (c & -> & Hc).
    exists c. split_and!; [done..|]. by apply write_all_lookup.
  - left. by apply write_all_lookup_other.
Qed.


Lemma string_length_app (a b : string) :
  String.length (a +:+ b) = (String.length a + String.length b)%nat.
Proof. induction a as [|x a IH]; simpl; [done|]. by rewrite IH. Qed.

(** The path of a chunk is longer than the folder: it is never the folder
    itself. *)
Lemma chunk_path_ne_folder (c : Z * Z) : chunk_path output_folder c ≠ output_folder.
Proof.
  intros Heq. apply (f_equal String.length) in Heq.
  unfold chunk_path, Py.path_join in Heq.
  replace (Py.starts_with_slash (chunk_name c.1 c.2)) with false in Heq by done.
  unfold chunk_name in Heq.
  destruct (_ || _); rewrite !string_length_app in Heq; simpl in Heq; lia.
Qed.

End Disk.

(** Along non-decreasing boundaries, the ranges before a given one cover the
    pages from the first boundary up to its start. *)
Lemma chunk_ranges_prefix_pages (b : list Z) (pre post : list (Z * Z)) (c : Z * Z) :
  StronglySorted Z.le b →
  chunk_ranges b = pre ++ c :: post →
  concat (chunk_pages <$> pre) = Py.range (default 0 (head b)) c.1.
Proof.
  intros Hs. revert pre. induction Hs as [|x l Hl IH Hx]; intros pre Hb.
  - by destruct pre.
  - destruct l as [|y l]; [by destruct pre|].
    rewrite chunk_ranges_cons in Hb. simpl.
    assert (x ≤ y) by (by apply Forall_cons in Hx as [? _]).
    destruct pre as [|p pre]; simpl in Hb.
    + injection Hb as <- _. simpl. unfold Py.range. by rewrite seqZ_nil by lia.
    + injection Hb as <- Hb. specialize (IH pre Hb). simpl in IH.
      assert (y ≤ c.1).
      { assert (c ∈ chunk_ranges (y :: l)) as Hc
          by (rewrite Hb; apply elem_of_app; right; left).
        apply elem_of_chunk_ranges in Hc as [Hc _].
        apply elem_of_cons in Hc as [->|Hc]; [lia|].
        apply StronglySorted_cons in Hl as [Hy _].
        rewrite Forall_forall in Hy. by apply Hy. }
      rewrite fmap_cons. cbn [concat]. rewrite IH.
      unfold chunk_pages, Py.range. simpl.
      replace (c.1 - x) with ((y - x) + (c.1 - y)) by lia.
      rewrite seqZ_app by lia. by replace (x + (y - x)) with y by lia.
Qed.

(** Either every save of a list of chunks succeeds, or there is a first one
    that raises. *)
Lemma first_save_failure (e : env) (output_folder : string) (cs : list (Z * Z)) :
  Forall (λ c, save_to e (chunk_path output_folder c) = None) cs
  ∨ ∃ pre c post err,
      cs = pre ++ c :: post
      ∧ Forall (λ c, save_to e (chunk_path output_folder c) = None) pre
      ∧ save_to e (chunk_path output_folder c) = Some err.
Proof.
  induction cs as [|c cs IH]; [by left|].
  destruct (save_to e (chunk_path output_folder c)) as [err|] eqn:Hc.
  - right. by exists [], c, cs, err.
  - destruct IH as [Hall|(pre & c' & post & err & -> & Hpre & Hbad)].
    + left. by constructor.
    + right. exists (c :: pre), c', post, err. split_and!; [done| |done].
      by constructor.
Qed.

(** * The claims *)

(** C1 (partition coverage), at the input on which it fails as stated: a
    document of 100 pages and an empty set of valid split points.  The call
    returns at line 36: it creates no output document and writes no file, so
    what it produces covers no page of the document. *)
Lemma C1_counterexample :
  let w' := run (env_ok 100) "pdf_to_split.pdf" [] default_output_folder empty_world in
  1 ≤ 100
  ∧ validate 100 [] = []
  ∧ drop 1 (handles w') = []
  ∧ disk w' = ∅
  ∧ concat (pages <$> drop 1 (handles w')) ≠ Py.range 0 100.
Proof. by vm_compute. Qed.

(** C1 (partition coverage), as amended.  For a document of at least one page
    and requested split points of which at least one is valid, the pages of
    the non-degenerate chunks, taken in order, are exactly the pages
    [0 .. total_pages - 1] (no gap), and no page lies in two chunks (no
    overlap).  When the output folder is in place and no save raises, these
    chunks are what the call produces: its output documents hold their pages,
    chunk by chunk, and they are what it saves. *)
Theorem C1_partition_coverage (e : env) (input_pdf_path : string)
    (split_pages : list Z) (output_folder : string) (w : world) (n : nat) :
  pdf_at e input_pdf_path = Ok n →
  1 ≤ Z.of_nat n →
  validate (Z.of_nat n) split_pages ≠ [] →
  let total_pages := Z.of_nat n in
  let produced := split_chunks total_pages split_pages in
  let w' := run e input_pdf_path split_pages output_folder w in
  concat (chunk_pages <$> produced) = Py.range 0 total_pages
  ∧ (∀ c c' page,
       c ∈ produced → c' ∈ produced →
       page ∈ chunk_pages c → page ∈ chunk_pages c' → c = c')
  ∧ (folder_ready e w output_folder →
     Forall (λ c, save_to e (chunk_path output_folder c) = None) produced →
     pages <$> drop (S (length (handles w))) (handles w') = chunk_pages <$> produced
     ∧ disk w' = write_all output_folder produced (disk w)).
Proof.
  intros Hpdf Htotal Hne total_pages produced w'. split_and!.
  - unfold produced, split_chunks, boundaries. simpl.
    rewrite chunks_concat.
    + by rewrite last_cons, last_snoc.
    + apply lt_sorted_le_sorted, (split_boundaries_sorted _ _ Htotal).
  - intros c c' page Hc Hc' Hp Hp'. unfold produced in Hc, Hc'.
    rewrite split_chunks_ranges in Hc, Hc' by done.
    apply elem_of_chunk_pages in Hp, Hp'.
    eapply ordered_ranges_disjoint; [|done..].
    apply lt_sorted_chunk_ranges_ordered, split_boundaries_sorted. done.
  - intros Hready Hok. subst w'. unfold run.
    destruct (run_all_saved e input_pdf_path split_pages output_folder w n
                Hpdf ltac:(lia) Hne Hready Hok) as [out ->].
    simpl. split; [|done].
    rewrite (cons_middle _ (handles w)), (assoc_L (++)).
    rewrite drop_app_length' by (rewrite length_app; simpl; lia).
    rewrite <- list_fmap_compose. by apply list_fmap_ext.
Qed.

Lemma C1_partition_coverage_witness :
  pdf_at (env_ok 100) "pdf_to_split.pdf" = Ok 100%nat
  ∧ 1 ≤ Z.of_nat 100
  ∧ validate (Z.of_nat 100) [77; 21; 21] ≠ []
  ∧ concat (chunk_pages <$> split_chunks (Z.of_nat 100) [77; 21; 21])
    = Py.range 0 (Z.of_nat 100).
Proof.
  split; [reflexivity|]. split; [lia|]. split; [by vm_compute|].
  apply (C1_partition_coverage (env_ok 100) "pdf_to_split.pdf" [77; 21; 21]
           default_output_folder empty_world 100); [reflexivity|lia|by vm_compute].
Defined.

(** C9 (validation equivalence).  The guarded filter of the code, which looks
    at the first and the last point only, yields the list obtained by keeping
    unconditionally the points within bounds; and on the normalised list the
    guard is false exactly when every point is within bounds. *)
Theorem C9_validation_equivalence (total_pages : Z) (split_pages : list Z) :
  validate total_pages split_pages = filter_unconditionally total_pages split_pages
  ∧ (needs_adjusting total_pages (normalize split_pages) = false
     ↔ Forall (λ p, 1 ≤ p < total_pages) (normalize split_pages)).
Proof.
  split.
  - rewrite validate_filter. unfold keep_in_bounds, filter_unconditionally.
    apply list_filter_iff. intros p. apply in_bounds_spec.
  - split.
    + intros Hg. eapply Forall_impl.
      * apply guard_false_all_in_bounds; [apply normalize_sorted|done].
      * intros p. apply in_bounds_spec.
    + intros Hall. apply all_in_bounds_guard_false.
      eapply Forall_impl; [done|]. intros p. apply in_bounds_spec.
Qed.

(** C7 (boundaries invariant).  With at least one page and at least one valid
    split point, the boundaries are non-decreasing, each entry at most the
    next, and there are two more of them than valid split points. *)
Theorem C7_boundaries_invariant (total_pages : Z) (split_pages : list Z) :
  1 ≤ total_pages →
  validate total_pages split_pages ≠ [] →
  Sorted Z.le (boundaries total_pages (validate total_pages split_pages))
  ∧ length (boundaries total_pages (validate total_pages split_pages))
    = (length (validate total_pages split_pages) + 2)%nat.
Proof.
  intros Htotal _. split.
  - apply StronglySorted_Sorted, lt_sorted_le_sorted.
    by apply split_boundaries_sorted.
  - apply length_boundaries.
Qed.

Lemma C7_boundaries_invariant_witness :
  1 ≤ 100 ∧ validate 100 [21; 77] ≠ []
  ∧ Sorted Z.le (boundaries 100 (validate 100 [21; 77]))
  ∧ length (boundaries 100 (validate 100 [21; 77]))
    = (length (validate 100 [21; 77]%Z) + 2)%nat.
Proof.
  split; [lia|]. split; [by vm_compute|].
  apply (C7_boundaries_invariant 100 [21; 77]); [lia|by vm_compute].
Defined.



(** C5 (normalisation idempotence).  Two requests with the same set of
    integers leave the same world behind, console included, and yield the same
    chunks; in particular a request and its sorted, deduplicated version do. *)
Theorem C5_normalization_idempotence (e : env) (input_pdf_path : string)
    (output_folder : string) (w : world) (l1 l2 : list Z) :
  (∀ x, x ∈ l1 ↔ x ∈ l2) →
  split_pdf_by_pages e input_pdf_path l1 output_folder w
  = split_pdf_by_pages e input_pdf_path l2 output_folder w
  ∧ split_pdf_by_pages e input_pdf_path (normalize l1) output_folder w
    = split_pdf_by_pages e input_pdf_path l1 output_folder w
  ∧ ∀ total_pages, split_chunks total_pages l1 = split_chunks total_pages l2.
Proof.
  intros Hin. split_and!.
  - unfold split_pdf_by_pages. by rewrite (normalize_ext l1 l2).
  - unfold split_pdf_by_pages. by rewrite normalize_idemp.
  - intros total_pages. unfold split_chunks. by rewrite (validate_ext _ l1 l2).
Qed.

Lemma C5_normalization_idempotence_witness :
  (∀ x, x ∈ [77; 21; 21] ↔ x ∈ [21; 77])
  ∧ run (env_ok 100) "pdf_to_split.pdf" [77; 21; 21] default_output_folder empty_world
    = run (env_ok 100) "pdf_to_split.pdf" [21; 77] default_output_folder empty_world.
Proof.
  assert (∀ x : Z, x ∈ [77; 21; 21] ↔ x ∈ [21; 77]) as Hin.
  { intros x. rewrite !elem_of_cons, !elem_of_nil. lia. }
  split; [exact Hin|].
  unfold run.
  by destruct (C5_normalization_idempotence (env_ok 100) "pdf_to_split.pdf"
                 default_output_folder empty_world [77; 21; 21] [21; 77] Hin) as [-> _].
Defined.

(** C6 (no-op conditions).  When the document has no pages, or has pages but
    none of the requested points is within bounds, the call writes no file
    and does not create the output folder (nor any output document). *)
Theorem C6_no_op_conditions (e : env) (input_pdf_path : string)
    (split_pages : list Z) (output_folder : string) (w : world) (n : nat) :
  pdf_at e input_pdf_path = Ok n →
  n = 0%nat ∨ (∀ p, p ∈ split_pages → ¬ (1 ≤ p < Z.of_nat n)) →
  let w' := run e input_pdf_path split_pages output_folder w in
  disk w' = disk w
  ∧ folders w' = folders w
  ∧ length (handles w') = S (length (handles w)).
Proof.
  intros Hpdf Hcase w'. subst w'. unfold run.
  destruct (decide (n = 0%nat)) as [->|Hn].
  - destruct (run_empty_document e input_pdf_path split_pages output_folder w Hpdf)
      as [out ->].
    simpl. rewrite length_app. simpl. split_and!; [done..|lia].
  - destruct Hcase as [?|Hinvalid]; [done|].
    assert (validate (Z.of_nat n) split_pages = []) as Hnone.
    { apply elem_of_nil_inv. intros p [Hp Hb]%elem_of_validate.
      by apply (Hinvalid p). }
    destruct (run_no_valid_points e input_pdf_path split_pages output_folder w n
                Hpdf Hn Hnone) as [out ->].
    simpl. rewrite length_app. simpl. split_and!; [done..|lia].
Qed.

Lemma C6_no_op_conditions_witness :
  pdf_at (env_ok 100) "pdf_to_split.pdf" = Ok 100%nat
  ∧ (∀ p, p ∈ [0; 100] → ¬ (1 ≤ p < Z.of_nat 100))
  ∧ disk (run (env_ok 100) "pdf_to_split.pdf" [0; 100] default_output_folder empty_world)
    = disk empty_world.
Proof.
  assert (∀ p : Z, p ∈ [0; 100] → ¬ (1 ≤ p < Z.of_nat 100)) as Hinvalid.
  { intros p. rewrite !elem_of_cons, elem_of_nil. lia. }
  split; [reflexivity|]. split; [exact Hinvalid|].
  apply (C6_no_op_conditions (env_ok 100) "pdf_to_split.pdf" [0; 100]
           default_output_folder empty_world 100); [reflexivity|by right].
Defined.

(** C4 (fail-fast on write failure).  Let the output folder be in place, the
    chunks of the call be [pre ++ c :: post], the saves of [pre] succeed and
    the save of [c] raise.  Then the call returns having created output
    documents for [pre] and [c] only (nothing of [post] is attempted), with
    the input document and every output document closed; the disk holds each
    chunk of [pre] under its path with its pages (nothing is rolled back),
    and apart from the paths of [pre] and of [c] it is as it was (nothing
    else is written).  What the failed save leaves at the path of [c] is not
    the program's to say. *)
Theorem C4_fail_fast_on_write_failure (e : env) (input_pdf_path : string)
    (split_pages : list Z) (output_folder : string) (w : world) (n : nat)
    (pre post : list (Z * Z)) (c : Z * Z) (err : string) :
  pdf_at e input_pdf_path = Ok n →
  1 ≤ Z.of_nat n →
  validate (Z.of_nat n) split_pages ≠ [] →
  folder_ready e w output_folder →
  split_chunks (Z.of_nat n) split_pages = pre ++ c :: post →
  Forall (λ c, save_to e (chunk_path output_folder c) = None) pre →
  save_to e (chunk_path output_folder c) = Some err →
  let w' := run e input_pdf_path split_pages output_folder w in
  (split_pdf_by_pages e input_pdf_path split_pages output_folder w).1 = Returned
  ∧ handles w'
    = handles w ++ Document false (seqZ 0 (Z.of_nat n)) :: (chunk_doc <$> pre ++ [c])
  ∧ Forall (λ d, is_open d = false) (drop (length (handles w)) (handles w'))
  ∧ (∀ c', c' ∈ pre → disk w' !! chunk_path output_folder c' = Some (chunk_pages c'))
  ∧ (∀ path, path ∉ chunk_path output_folder <$> pre ++ [c] →
             disk w' !! path = disk w !! path).
Proof.
  intros Hpdf Hn Hne Hready Hcs Hok Hbad w'. subst w'. unfold run.
  destruct (run_save_failed e input_pdf_path split_pages output_folder w n Hpdf
              ltac:(lia) pre post c err Hne Hready Hcs Hok Hbad) as [out ->].
  pose proof (NoDup_split_chunks (Z.of_nat n) split_pages Hn) as Hnd.
  rewrite Hcs in Hnd. apply NoDup_app in Hnd as (Hpre & Hdisj & _).
  simpl. split_and!; [done..| | |].
  - rewrite drop_app_length. constructor; [done|].
    apply Forall_fmap, Forall_forall. done.
  - intros c' Hc'. rewrite failed_disk_lookup_ne.
    + by apply write_all_lookup.
    + intros Heq%(inj _). subst c'. apply (Hdisj c Hc'). left.
  - intros path Hpath. rewrite fmap_app, not_elem_of_app in Hpath.
    destruct Hpath as [Hpre' Hc]. rewrite failed_disk_lookup_ne.
    + by apply write_all_lookup_other.
    + intros ->. apply Hc. simpl. left.
Qed.

Lemma C4_fail_fast_on_write_failure_witness :
  let e := env_save_fails 100 "output_chunks/chunk_22_to_77.pdf" in
  let w' := run e "pdf_to_split.pdf" [21; 77] default_output_folder empty_world in
  handles w'
  = handles empty_world
    ++ Document false (seqZ 0 (Z.of_nat 100)) :: (chunk_doc <$> [(0, 21)] ++ [(21, 77)])
  ∧ ∀ c', c' ∈ [(0, 21)] →
          disk w' !! chunk_path default_output_folder c' = Some (chunk_pages c').
Proof.
  intros e w'.
  destruct (C4_fail_fast_on_write_failure e "pdf_to_split.pdf" [21; 77]
              default_output_folder empty_world 100 [(0, 21)] [(77, 100)] (21, 77)
              "cannot write")
    as (_ & Hhandles & _ & Hdisk & _).
  - reflexivity.
  - lia.
  - by vm_compute.
  - right. reflexivity.
  - by vm_compute.
  - repeat constructor.
  - reflexivity.
  - split; [exact Hhandles|exact Hdisk].
Defined.

(** C8 (concrete naming and chunking).  When the output folder is in place
    and every save succeeds, a document of 100 pages split at [21; 77] has
    boundaries [0; 21; 77; 100] and the call adds to the disk exactly the
    three files [chunk_1_to_21.pdf] (pages 1-21, that is 0-20 counting from
    0), [chunk_22_to_77.pdf] and [chunk_78_to_100.pdf] in the output folder;
    and in every call that gets past lines 38-40, each non-degenerate chunk
    [start, end) is on disk under the name [chunk_{start+1}_to_{end}.pdf]
    with the pages [start .. end-1]. *)
Theorem C8_naming_and_chunking (e : env) (input_pdf_path : string) (w : world) :
  pdf_at e input_pdf_path = Ok 100%nat →
  (∀ path, save_to e path = None) →
  folder_ready e w default_output_folder →
  boundaries 100 (validate 100 [21; 77]) = [0; 21; 77; 100]
  ∧ disk (run e input_pdf_path [21; 77] default_output_folder w)
    = <["output_chunks/chunk_78_to_100.pdf" := Py.range 77 100]>
        (<["output_chunks/chunk_22_to_77.pdf" := Py.range 21 77]>
           (<["output_chunks/chunk_1_to_21.pdf" := Py.range 0 21]> (disk w)))
  ∧ ∀ path' split_pages output_folder w' (n : nat) start_page end_page,
      pdf_at e path' = Ok n →
      1 ≤ Z.of_nat n →
      validate (Z.of_nat n) split_pages ≠ [] →
      folder_ready e w' output_folder →
      (start_page, end_page) ∈ split_chunks (Z.of_nat n) split_pages →
      disk (run e path' split_pages output_folder w')
        !! Py.path_join output_folder
             ("chunk_" +:+ Py.str (start_page + 1) +:+ "_to_" +:+ Py.str end_page +:+ ".pdf")
      = Some (Py.range start_page end_page).
Proof.
  intros Hpdf Hsave Hready. split_and!.
  - by vm_compute.
  - unfold run.
    destruct (run_all_saved e input_pdf_path [21; 77] default_output_folder w 100
                Hpdf ltac:(lia)) as [out ->].
    + by vm_compute.
    + done.
    + apply Forall_forall. intros c _. apply Hsave.
    + simpl. replace (split_chunks (Z.of_nat 100) [21; 77])
        with [(0, 21); (21, 77); (77, 100)] by (by vm_compute).
      reflexivity.
  - intros path' split_pages output_folder w' n start_page end_page
      Hpdf' Hn Hne Hready' Hc.
    unfold run.
    destruct (run_all_saved e path' split_pages output_folder w' n
                Hpdf' ltac:(lia) Hne Hready') as [out ->].
    + apply Forall_forall. intros c _. apply Hsave.
    + simpl.
      apply (write_all_lookup output_folder _ _ (start_page, end_page)); [|done].
      by apply NoDup_split_chunks.
Qed.

Lemma C8_naming_and_chunking_witness :
  pdf_at (env_ok 100) "pdf_to_split.pdf" = Ok 100%nat
  ∧ (∀ path, save_to (env_ok 100) path = None)
  ∧ folder_ready (env_ok 100) empty_world default_output_folder
  ∧ disk (run (env_ok 100) "pdf_to_split.pdf" [21; 77] default_output_folder empty_world)
    = <["output_chunks/chunk_78_to_100.pdf" := Py.range 77 100]>
        (<["output_chunks/chunk_22_to_77.pdf" := Py.range 21 77]>
           (<["output_chunks/chunk_1_to_21.pdf" := Py.range 0 21]> (disk empty_world))).
Proof.
  split; [reflexivity|]. split; [reflexivity|]. split; [right; reflexivity|].
  apply (C8_naming_and_chunking (env_ok 100) "pdf_to_split.pdf" empty_world);
    [reflexivity|reflexivity|right; reflexivity].
Defined.

(** C10 (no degenerate chunk after validation).  With at least one page and
    at least one valid split point the boundaries are strictly increasing, so
    the test [start_page >= end_page] of line 48 is false at every iteration;
    and when the output folder is in place and no save raises, the call
    writes one file per iteration, that is (number of valid split points) + 1
    files under pairwise distinct paths, and leaves every other path of the
    disk as it was. *)
Theorem C10_no_degenerate_chunk (e : env) (input_pdf_path : string)
    (split_pages : list Z) (output_folder : string) (w : world) (n : nat) :
  pdf_at e input_pdf_path = Ok n →
  1 ≤ Z.of_nat n →
  validate (Z.of_nat n) split_pages ≠ [] →
  let valid := validate (Z.of_nat n) split_pages in
  let ranges := chunk_ranges (boundaries (Z.of_nat n) valid) in
  let paths := chunk_path output_folder <$> ranges in
  let w' := run e input_pdf_path split_pages output_folder w in
  StronglySorted Z.lt (boundaries (Z.of_nat n) valid)
  ∧ Forall (λ c, bool_decide (c.1 >= c.2) = false) ranges
  ∧ (folder_ready e w output_folder →
     Forall (λ path, save_to e path = None) paths →
     length paths = (length valid + 1)%nat
     ∧ NoDup paths
     ∧ (∀ c, c ∈ ranges → disk w' !! chunk_path output_folder c = Some (chunk_pages c))
     ∧ (∀ path, path ∉ paths → disk w' !! path = disk w !! path)
     ∧ handles w'
       = handles w ++ Document false (seqZ 0 (Z.of_nat n)) :: (chunk_doc <$> ranges)).
Proof.
  intros Hpdf Hn Hne valid ranges paths w'.
  pose proof (split_boundaries_sorted (Z.of_nat n) split_pages Hn) as Hsorted.
  pose proof (split_chunks_ranges (Z.of_nat n) split_pages Hn) as Hranges.
  fold valid in Hsorted, Hranges. fold ranges in Hranges.
  split_and!.
  - done.
  - eapply Forall_impl; [by apply lt_sorted_chunk_ranges|].
    intros c Hc. simpl in Hc. apply bool_decide_eq_false. lia.
  - intros Hready Hok. subst w'. unfold run.
    destruct (run_all_saved e input_pdf_path split_pages output_folder w n
                Hpdf ltac:(lia) Hne Hready) as [out ->].
    { rewrite Hranges. by apply Forall_fmap in Hok. }
    simpl. rewrite Hranges.
    assert (NoDup ranges) as Hnd by (by apply lt_sorted_chunk_ranges_NoDup).
    split_and!.
    + subst paths ranges.
      rewrite length_fmap, length_chunk_ranges, length_boundaries. lia.
    + by apply (NoDup_fmap_2 _).
    + intros c Hc. by apply write_all_lookup.
    + intros path Hpath. by apply write_all_lookup_other.
    + done.
Qed.

Lemma C10_no_degenerate_chunk_witness :
  pdf_at (env_ok 100) "pdf_to_split.pdf" = Ok 100%nat
  ∧ 1 ≤ Z.of_nat 100
  ∧ validate (Z.of_nat 100) [50; 50] ≠ []
  ∧ StronglySorted Z.lt (boundaries (Z.of_nat 100) (validate (Z.of_nat 100) [50; 50])).
Proof.
  split; [reflexivity|]. split; [lia|]. split; [by vm_compute|].
  apply (C10_no_degenerate_chunk (env_ok 100) "pdf_to_split.pdf" [50; 50]
           default_output_folder empty_world 100); [reflexivity|lia|by vm_compute].
Defined.

(** When the call returns from a PDF that has pages, whatever the saves do,
    the input document is closed. *)
Lemma input_document_closed_when_pages (e : env) (input_pdf_path : string)
    (split_pages : list Z) (output_folder : string) (w : world) (n : nat) :
  pdf_at e input_pdf_path = Ok n →
  n ≠ 0%nat →
  validate (Z.of_nat n) split_pages = [] ∨ folder_ready e w output_folder →
  is_open <$> handles (run e input_pdf_path split_pages output_folder w)
                !! length (handles w)
  = Some false.
Proof.
  intros Hpdf Hn Hcase. unfold run.
  destruct (decide (validate (Z.of_nat n) split_pages = [])) as [Hnone|Hne].
  - destruct (run_no_valid_points e input_pdf_path split_pages output_folder w n
                Hpdf Hn Hnone) as [out ->].
    simpl. by rewrite list_lookup_middle.
  - destruct Hcase as [?|Hready]; [done|].
    destruct (first_save_failure e output_folder
                (split_chunks (Z.of_nat n) split_pages))
      as [Hall|(pre & c & post & err & Hcs & Hpre & Hbad)].
    + destruct (run_all_saved e input_pdf_path split_pages output_folder w n
                  Hpdf Hn Hne Hready Hall) as [out ->].
      simpl. by rewrite list_lookup_middle.
    + destruct (run_save_failed e input_pdf_path split_pages output_folder w n
                  Hpdf Hn pre post c err Hne Hready Hcs Hpre Hbad) as [out ->].
      simpl. by rewrite list_lookup_middle.
Qed.

(** When [os.makedirs] raises at line 39, the exception leaves the function
    with the input document open: no [try] guards the call. *)
Lemma input_document_open_when_makedirs_raises (e : env) (input_pdf_path : string)
    (split_pages : list Z) (output_folder : string) (w : world) (n : nat)
    (err : string) :
  pdf_at e input_pdf_path = Ok n →
  n ≠ 0%nat →
  validate (Z.of_nat n) split_pages ≠ [] →
  ¬ exists_on w output_folder →
  (makedirs_to e output_folder).2 = Some err →
  (split_pdf_by_pages e input_pdf_path split_pages output_folder w).1 = Escaped err
  ∧ is_open <$> handles (run e input_pdf_path split_pages output_folder w)
                  !! length (handles w)
    = Some true.
Proof.
  intros Hpdf Hn Hne Hmissing Hraise. unfold run.
  destruct (run_makedirs_raised e input_pdf_path split_pages output_folder w n
              Hpdf Hn err Hne Hmissing Hraise) as [out ->].
  simpl. split; [done|]. by rewrite list_lookup_middle.
Qed.

(** C2 (resource release), at the input on which it fails: a PDF without
    pages.  The call returns at line 26 with the input document, opened at
    line 17, still open; the sibling exit of lines 33-36 closes it. *)
Theorem C2_empty_document_left_open (e : env) (input_pdf_path : string)
    (split_pages : list Z) (output_folder : string) (w : world) :
  pdf_at e input_pdf_path = Ok 0%nat →
  let w' := run e input_pdf_path split_pages output_folder w in
  (split_pdf_by_pages e input_pdf_path split_pages output_folder w).1 = Returned
  ∧ is_open <$> handles w' !! length (handles w) = Some true.
Proof.
  intros Hpdf w'. subst w'. unfold run.
  destruct (run_empty_document e input_pdf_path split_pages output_folder w Hpdf)
    as [out ->].
  simpl. split; [done|]. by rewrite list_lookup_middle.
Qed.

Lemma C2_empty_document_left_open_witness :
  is_open <$> handles (run (env_ok 0) "pdf_to_split.pdf" [21; 77]
                         default_output_folder empty_world) !! 0%nat
  = Some true.
Proof.
  apply (C2_empty_document_left_open (env_ok 0) "pdf_to_split.pdf" [21; 77]
           default_output_folder empty_world).
  reflexivity.
Defined.

(** * Further properties of the code *)

(** ** The console transcript *)

Section Console.

Variables (e : env) (doc : nat) (output_folder : string).

Local Abbreviation body := (λ c : Z * Z, chunk_body e doc output_folder c.1 c.2).

Ltac run_prints Hsave :=
  unfold chunk_body; rewrite bool_decide_eq_false_2 by lia;
  unfold mbind, cmd_bind, print, fitz_new, insert_pdf, save, close, return_,
    set_handles, set_disk;
  simpl; unfold chunk_path in Hsave; simpl in Hsave; rewrite Hsave; simpl;
  try (destruct (save_residue e _); simpl);
  rewrite <- !(assoc_L (++)).

Lemma chunk_body_saved_stdout (c : Z * Z) (w : world) :
  c.1 < c.2 →
  save_to e (chunk_path output_folder c) = None →
  (body c w).1 = Next tt
  ∧ stdout (body c w).2 = stdout w ++ saved_lines output_folder c.
Proof. destruct c as [s t]. simpl. intros Hlt Hsave. by run_prints Hsave. Qed.

Lemma chunk_body_failed_stdout (c : Z * Z) (err : string) (w : world) :
  c.1 < c.2 →
  save_to e (chunk_path output_folder c) = Some err →
  (body c w).1 = Returned
  ∧ stdout (body c w).2 = stdout w ++ failed_lines output_folder c err.
Proof. destruct c as [s t]. simpl. intros Hlt Hsave. by run_prints Hsave. Qed.

Lemma loop_all_saved_stdout (cs : list (Z * Z)) (w : world) :
  Forall (λ c, c.1 < c.2) cs →
  Forall (λ c, save_to e (chunk_path output_folder c) = None) cs →
  (for_each cs body w).1 = Next tt
  ∧ stdout (for_each cs body w).2
    = stdout w ++ concat (saved_lines output_folder <$> cs).
Proof.
  intros Hlt. revert w. induction Hlt as [|c cs Hc _ IH]; intros w Hok.
  - simpl. by rewrite (right_id_L [] (++)).
  - apply Forall_cons in Hok as [Hsave Hok].
    destruct (chunk_body_saved_stdout c w Hc Hsave) as [Hflow Hout].
    cbn [for_each]. unfold mbind, cmd_bind.
    destruct (body c w) as [[[]| |?] w1]; [|done..]. simpl in Hout.
    destruct (IH w1 Hok) as [-> ->]. split; [done|].
    rewrite Hout, fmap_cons. cbn [concat]. by rewrite (assoc_L (++)).
Qed.

Lemma loop_failed_stdout (pre post : list (Z * Z)) (c : Z * Z) (err : string)
    (w : world) :
  Forall (λ c, c.1 < c.2) (pre ++ [c]) →
  Forall (λ c, save_to e (chunk_path output_folder c) = None) pre →
  save_to e (chunk_path output_folder c) = Some err →
  (for_each (pre ++ c :: post) body w).1 = Returned
  ∧ stdout (for_each (pre ++ c :: post) body w).2
    = stdout w ++ concat (saved_lines output_folder <$> pre)
      ++ failed_lines output_folder c err.
Proof.
  intros Hlt Hok Hbad. revert w. induction pre as [|p pre IH]; intros w.
  - simpl in Hlt. apply (Forall_singleton (λ c : Z * Z, c.1 < c.2)) in Hlt.
    destruct (chunk_body_failed_stdout c err w Hlt Hbad) as [Hflow Hout].
    cbn [app for_each]. unfold mbind, cmd_bind.
    destruct (body c w) as [[[]| |?] w1]; [done| |done]. by simpl in *.
  - simpl in Hlt. apply Forall_cons in Hlt as [Hp Hlt].
    apply Forall_cons in Hok as [Hsave Hok].
    destruct (chunk_body_saved_stdout p w Hp Hsave) as [Hflow Hout].
    cbn [app for_each]. unfold mbind, cmd_bind.
    destruct (body p w) as [[[]| |?] w1]; [|done..]. simpl in Hout.
    destruct (IH Hlt Hok w1) as [-> ->]. split; [done|].
    rewrite Hout, fmap_cons. cbn [concat]. by rewrite <- !(assoc_L (++)).
Qed.

End Console.

Section Transcript.

Variables (e : env) (input_pdf_path : string) (split_pages : list Z)
  (output_folder : string) (w : world) (n : nat).
Hypothesis Hpdf : pdf_at e input_pdf_path = Ok n.
Hypothesis Hn : n ≠ 0%nat.

Local Abbreviation split := (split_pdf_by_pages e input_pdf_path split_pages output_folder).
Local Abbreviation total_pages := (Z.of_nat n).
Local Abbreviation doc := (length (handles w)).
Local Abbreviation cs := (split_chunks total_pages split_pages).

Ltac run_to_validate :=
  unfold split_pdf_by_pages, mbind, cmd_bind, mret, cmd_ret, print, fitz_open, len,
    close, return_, path_exists, makedirs, set_handles, set_folders;
  simpl; rewrite Hpdf; simpl;
  rewrite list_lookup_middle by done; simpl;
  rewrite ?length_seqZ, ?Nat2Z.id;
  rewrite bool_decide_eq_false_2 by lia;
  unfold validate, opening_lines, warning_line;
  destruct (needs_adjusting total_pages (normalize split_pages)); simpl.

Lemma no_valid_points_stdout :
  validate total_pages split_pages = [] →
  stdout (split w).2
  = stdout w ++ opening_lines input_pdf_path total_pages split_pages
    ++ [no_valid_points_line].
Proof.
  run_to_validate; intros ->; simpl; rewrite <- !(assoc_L (++)); done.
Qed.

(** When [os.makedirs] raises, the console stops after the opening lines. *)
Lemma makedirs_raised_stdout (err : string) :
  validate total_pages split_pages ≠ [] →
  ¬ exists_on w output_folder →
  (makedirs_to e output_folder).2 = Some err →
  stdout (split w).2
  = stdout w ++ opening_lines input_pdf_path total_pages split_pages.
Proof.
  intros Hne Hmissing%exists_on_false Hraise. revert Hne.
  destruct (makedirs_to e output_folder) as [parents answer] eqn:Hmade.
  simpl in Hraise. subst answer.
  run_to_validate; intros Hne; rewrite bool_decide_eq_false_2 by done; simpl;
    rewrite Hmissing, Hmade; simpl; rewrite <- ?(assoc_L (++)); done.
Qed.

Lemma reaches_loop_stdout :
  validate total_pages split_pages ≠ [] →
  folder_ready e w output_folder →
  ∃ w0,
    split w
    = (chunk_loop e doc output_folder
         (boundaries total_pages (validate total_pages split_pages)) ;;
       close doc ;;
       print "All chunks processed successfully!") w0
    ∧ stdout w0
      = stdout w ++ opening_lines input_pdf_path total_pages split_pages
        ++ folder_lines output_folder w.
Proof.
  intros Hne Hready. revert Hne. unfold folder_lines.
  destruct (bool_decide (output_folder ∈ folders w)
            || bool_decide (is_Some (disk w !! output_folder))) eqn:Hex.
  - run_to_validate; intros Hne; rewrite bool_decide_eq_false_2 by done; simpl;
      rewrite Hex; simpl; eexists; (split; [done|]); simpl;
      rewrite <- ?(assoc_L (++)), ?(right_id_L [] (++)); done.
  - apply exists_on_false in Hex as Hmissing.
    destruct Hready as [?|Hnone]; [done|].
    destruct (makedirs_to e output_folder) as [parents answer] eqn:Hmade.
    simpl in Hnone. subst answer.
    run_to_validate; intros Hne; rewrite bool_decide_eq_false_2 by done; simpl;
      rewrite Hex, Hmade; simpl; eexists; (split; [done|]); simpl;
      rewrite <- ?(assoc_L (++)), ?(right_id_L [] (++)); done.
Qed.

Lemma split_chunks_nondegenerate :
  Forall (λ c : Z * Z, c.1 < c.2) cs.
Proof.
  eapply Forall_impl; [apply (split_chunks_within total_pages split_pages); lia|].
  simpl. intros c. lia.
Qed.

Lemma all_saved_stdout :
  validate total_pages split_pages ≠ [] →
  folder_ready e w output_folder →
  Forall (λ c, save_to e (chunk_path output_folder c) = None) cs →
  stdout (split w).2
  = stdout w ++ opening_lines input_pdf_path total_pages split_pages
    ++ folder_lines output_folder w
    ++ concat (saved_lines output_folder <$> cs)
    ++ [success_line].
Proof.
  intros Hne Hready Hok.
  destruct (reaches_loop_stdout Hne Hready) as (w0 & -> & Hout0).
  unfold mbind at 1. unfold cmd_bind at 1.
  rewrite chunk_loop_ranges, for_each_chunks. fold (chunks (boundaries total_pages
    (validate total_pages split_pages))). fold cs.
  destruct (loop_all_saved_stdout e doc output_folder cs w0
              split_chunks_nondegenerate Hok) as [Hflow Hout].
  destruct (for_each cs _ w0) as [[[]| |?] w1]; [|done..]. simpl in Hout.
  unfold mbind, cmd_bind, close, print, set_handles, success_line. simpl.
  rewrite Hout, Hout0. by rewrite <- !(assoc_L (++)).
Qed.

Lemma save_failed_stdout (pre post : list (Z * Z)) (c : Z * Z) (err : string) :
  validate total_pages split_pages ≠ [] →
  folder_ready e w output_folder →
  cs = pre ++ c :: post →
  Forall (λ c, save_to e (chunk_path output_folder c) = None) pre →
  save_to e (chunk_path output_folder c) = Some err →
  stdout (split w).2
  = stdout w ++ opening_lines input_pdf_path total_pages split_pages
    ++ folder_lines output_folder w
    ++ concat (saved_lines output_folder <$> pre)
    ++ failed_lines output_folder c err.
Proof.
  intros Hne Hready Hcs Hok Hbad.
  destruct (reaches_loop_stdout Hne Hready) as (w0 & -> & Hout0).
  unfold mbind at 1. unfold cmd_bind at 1.
  rewrite chunk_loop_ranges, for_each_chunks. fold (chunks (boundaries total_pages
    (validate total_pages split_pages))). fold cs. rewrite Hcs.
  destruct (loop_failed_stdout e doc output_folder pre post c err w0) as [Hflow Hout];
    [|done|done|].
  { pose proof split_chunks_nondegenerate as Hlt. rewrite Hcs in Hlt.
    change (c :: post) with ([c] ++ post) in Hlt.
    rewrite (assoc_L (++)) in Hlt. by apply Forall_app in Hlt as [? _]. }
  destruct (for_each _ _ w0) as [[[]| |?] w1]; [done| |done]. cbn [snd] in Hout |- *.
  rewrite Hout, Hout0. by rewrite <- !(assoc_L (++)).
Qed.

End Transcript.

(** ** Every exit of a call *)

Lemma ensure_folder_bounds (e : env) (output_folder : string) (w : world) :
  folders w ⊆ ensure_folder e output_folder w
  ∧ ensure_folder e output_folder w
    ⊆ {[output_folder]} ∪ list_to_set (makedirs_to e output_folder).1 ∪ folders w.
Proof. unfold ensure_folder. destruct (_ || _); clear; set_solver. Qed.

Lemma ensure_folder_exists (e : env) (output_folder : string) (w : world) :
  exists_on w output_folder → ensure_folder e output_folder w = folders w.
Proof. intros Hex%exists_on_true. unfold ensure_folder. by rewrite Hex. Qed.

Lemma ensure_folder_missing (e : env) (output_folder : string) (w : world) :
  ¬ exists_on w output_folder →
  ensure_folder e output_folder w
  = {[output_folder]} ∪ list_to_set (makedirs_to e output_folder).1 ∪ folders w.
Proof. intros Hex%exists_on_false. unfold ensure_folder. by rewrite Hex. Qed.

Section Outcomes.

Variables (e : env) (input_pdf_path : string) (split_pages : list Z)
  (output_folder : string) (w : world).

Local Abbreviation split := (split_pdf_by_pages e input_pdf_path split_pages output_folder).

(** On a PDF that has pages the call ends in one of four ways: no valid point
    (a return); [os.makedirs] raising (the exception escapes, the input
    document left open); every chunk saved; or the chunks before some chunk
    saved and that chunk's save raising (a return). *)
Lemma run_with_pages (n : nat) :
  pdf_at e input_pdf_path = Ok n → n ≠ 0%nat →
  let cs := split_chunks (Z.of_nat n) split_pages in
  let opened := Document true (seqZ 0 (Z.of_nat n)) in
  (validate (Z.of_nat n) split_pages = []
   ∧ ∃ out, split w = (Returned,
                       World (handles w ++ [closed opened]) (folders w) (disk w)
                             (stdout w ++ out)))
  ∨ (validate (Z.of_nat n) split_pages ≠ []
     ∧ ¬ exists_on w output_folder
     ∧ ∃ err out,
         (makedirs_to e output_folder).2 = Some err
         ∧ split w = (Escaped err,
                      World (handles w ++ [opened])
                            (list_to_set (makedirs_to e output_folder).1 ∪ folders w)
                            (disk w) (stdout w ++ out)))
  ∨ (validate (Z.of_nat n) split_pages ≠ []
     ∧ folder_ready e w output_folder
     ∧ Forall (λ c, save_to e (chunk_path output_folder c) = None) cs
     ∧ ∃ out, split w = (Next tt,
                         World (handles w ++ closed opened :: (chunk_doc <$> cs))
                               (clear_targets output_folder cs
                                  (ensure_folder e output_folder w))
                               (write_all output_folder cs (disk w))
                               (stdout w ++ out)))
  ∨ (validate (Z.of_nat n) split_pages ≠ []
     ∧ folder_ready e w output_folder
     ∧ ∃ pre c post err out,
         cs = pre ++ c :: post
         ∧ Forall (λ c, save_to e (chunk_path output_folder c) = None) pre
         ∧ save_to e (chunk_path output_folder c) = Some err
         ∧ split w = (Returned,
                      World (handles w ++ closed opened :: (chunk_doc <$> pre ++ [c]))
                            (failed_folders e output_folder c
                               (clear_targets output_folder pre
                                  (ensure_folder e output_folder w)))
                            (failed_disk e output_folder c
                               (write_all output_folder pre (disk w)))
                            (stdout w ++ out))).
Proof.
  intros Hpdf Hn cs opened.
  destruct (decide (validate (Z.of_nat n) split_pages = [])) as [Hnone|Hne].
  { left. split; [done|].
    by apply (run_no_valid_points e input_pdf_path split_pages output_folder w n). }
  right.
  assert (folder_ready e w output_folder
          ∨ (¬ exists_on w output_folder
             ∧ ∃ err, (makedirs_to e output_folder).2 = Some err)) as [Hready|[Hmissing [err Hraise]]].
  { unfold folder_ready.
    destruct (bool_decide (output_folder ∈ folders w)
              || bool_decide (is_Some (disk w !! output_folder))) eqn:Hex.
    - left. left. by apply exists_on_true.
    - apply exists_on_false in Hex.
      destruct (makedirs_to e output_folder).2 as [err|]; [|by left; right].
      right. split; [done|]. by exists err. }
  - right.
    destruct (first_save_failure e output_folder cs)
      as [Hall|(pre & c & post & err & Hcs & Hpre & Hbad)].
    + left. split_and!; [done..|].
      by apply (run_all_saved e input_pdf_path split_pages output_folder w n).
    + right. split_and!; [done..|]. exists pre, c, post, err.
      destruct (run_save_failed e input_pdf_path split_pages output_folder w n
                  Hpdf Hn pre post c err Hne Hready Hcs Hpre Hbad) as [out Hrun].
      by exists out.
  - left. split_and!; [done..|].
    destruct (run_makedirs_raised e input_pdf_path split_pages output_folder w n
                Hpdf Hn err Hne Hmissing Hraise) as [out Hrun].
    by exists err, out.
Qed.

End Outcomes.

(** * Further properties, stated *)

(** X1 (open failure, lines 15-22).  When the PDF cannot be opened the call
    returns at once: no document handle is created, the folders and the disk
    are untouched, and the console gains the attempt line and the error line
    carrying the exception's message. *)
Theorem X1_open_failure_creates_nothing (e : env) (input_pdf_path : string)
    (split_pages : list Z) (output_folder : string) (w : world) (err : string) :
  pdf_at e input_pdf_path = Raised err →
  split_pdf_by_pages e input_pdf_path split_pages output_folder w
  = (Returned,
     World (handles w) (folders w) (disk w)
           (stdout w ++ ["Attempting to read PDF: " +:+ input_pdf_path;
                         "Error reading PDF file: " +:+ err])).
Proof.
  intros Hpdf.
  unfold split_pdf_by_pages, mbind, cmd_bind, print, fitz_open, return_.
  simpl. rewrite Hpdf. simpl. by rewrite <- (assoc_L (++)).
Qed.

Lemma X1_open_failure_creates_nothing_witness :
  pdf_at env_unreadable "pdf_to_split.pdf" = Raised "cannot open"
  ∧ split_pdf_by_pages env_unreadable "pdf_to_split.pdf" [21; 77]
      default_output_folder empty_world
    = (Returned,
       World [] ∅ ∅ ["Attempting to read PDF: pdf_to_split.pdf";
                     "Error reading PDF file: cannot open"]).
Proof.
  split; [reflexivity|].
  apply (X1_open_failure_creates_nothing env_unreadable "pdf_to_split.pdf" [21; 77]
           default_output_folder empty_world "cannot open").
  reflexivity.
Defined.

(** X2 (degenerate ranges are skipped, lines 44-49).  For any list of
    boundaries within the document, sorted or not, the loop acts on the
    ranges with [start < end] only: when their saves succeed it leaves one
    closed document, one file and three console lines per such range, a
    folder that stood at the path of such a file being replaced by it, and
    nothing at all for a range with [start >= end]. *)
Theorem X2_degenerate_ranges_skipped (e : env) (doc : nat) (output_folder : string)
    (n : Z) (b : list Z) (w : world) :
  doc_ready doc n w →
  Forall (λ p, 0 ≤ p ≤ n) b →
  Forall (λ c, save_to e (chunk_path output_folder c) = None) (chunks b) →
  chunk_loop e doc output_folder b w
  = (Next tt,
     World (handles w ++ (chunk_doc <$> chunks b))
           (clear_targets output_folder (chunks b) (folders w))
           (write_all output_folder (chunks b) (disk w))
           (stdout w ++ concat (saved_lines output_folder <$> chunks b))).
Proof.
  intros Hdoc Hb Hok.
  assert (Forall (λ c : Z * Z, 0 ≤ c.1 ∧ c.1 < c.2 ∧ c.2 ≤ n) (chunks b)) as Hin.
  { apply Forall_forall. intros c [Hlt Hc]%list_elem_of_filter.
    apply elem_of_chunk_ranges in Hc as [H1 H2].
    rewrite Forall_forall in Hb. apply Hb in H1, H2. lia. }
  rewrite chunk_loop_ranges, for_each_chunks. fold (chunks b).
  destruct (loop_all_saved e doc output_folder n (chunks b) w Hdoc Hin Hok)
    as [out Hrun].
  destruct (loop_all_saved_stdout e doc output_folder (chunks b) w) as [_ Hout];
    [|done|].
  { eapply Forall_impl; [exact Hin|]. simpl. intros c. lia. }
  rewrite Hrun in Hout |- *. simpl in Hout.
  apply (inj (app (stdout w))) in Hout. by rewrite Hout.
Qed.

Lemma X2_degenerate_ranges_skipped_witness :
  let w := World [Document true (seqZ 0 100)] ∅ ∅ [] in
  chunks [0; 50; 50; 100] = [(0, 50); (50, 100)]
  ∧ chunk_loop (env_ok 100) 0 default_output_folder [0; 50; 50; 100] w
    = (Next tt,
       World (handles w ++ (chunk_doc <$> chunks [0; 50; 50; 100]))
             (clear_targets default_output_folder (chunks [0; 50; 50; 100]) (folders w))
             (write_all default_output_folder (chunks [0; 50; 50; 100]) (disk w))
             (stdout w ++ concat (saved_lines default_output_folder
                                    <$> chunks [0; 50; 50; 100]))).
Proof.
  intros w. split; [by vm_compute|].
  apply (X2_degenerate_ranges_skipped (env_ok 100) 0 default_output_folder 100
           [0; 50; 50; 100] w).
  - reflexivity.
  - repeat constructor; lia.
  - apply Forall_forall. intros c _. reflexivity.
Defined.

(** X3 (what a call never touches, lines 15-68).  However the call ends, by a
    return or by the exception of [os.makedirs], it leaves the documents that
    existed before as they were; the folders it adds are the output folder
    and the parents [os.makedirs] creates; a folder it removes stood at the
    path of a chunk of the split; and a path whose content it changes is the
    path of a chunk of the split, a non-empty range of pages of the document,
    which the path holds if its save did not raise. *)
Theorem X3_only_chunk_files_change (e : env) (input_pdf_path : string)
    (split_pages : list Z) (output_folder : string) (w : world) :
  let w' := run e input_pdf_path split_pages output_folder w in
  let is_chunk (path : string) (c : Z * Z) :=
    ∃ n : nat,
      pdf_at e input_pdf_path = Ok n
      ∧ c ∈ split_chunks (Z.of_nat n) split_pages
      ∧ (0 ≤ c.1 ∧ c.1 < c.2 ∧ c.2 ≤ Z.of_nat n)
      ∧ path = chunk_path output_folder c in
  handles w `prefix_of` handles w'
  ∧ folders w' ⊆ {[output_folder]} ∪ list_to_set (makedirs_to e output_folder).1
                 ∪ folders w
  ∧ (∀ path, path ∈ folders w → path ∉ folders w' → ∃ c, is_chunk path c)
  ∧ (∀ path,
       disk w' !! path = disk w !! path
       ∨ ∃ c, is_chunk path c
              ∧ (save_to e path = None → disk w' !! path = Some (chunk_pages c))).
Proof.
  intros w' is_chunk. subst w'. unfold run.
  assert (folders w ⊆ {[output_folder]} ∪ list_to_set (makedirs_to e output_folder).1
                      ∪ folders w) as Hsame by (clear; set_solver).
  assert (list_to_set (makedirs_to e output_folder).1 ∪ folders w
          ⊆ {[output_folder]} ∪ list_to_set (makedirs_to e output_folder).1
            ∪ folders w) as Hparents.
  { intros p [Hp|Hp]%elem_of_union; apply elem_of_union;
      [left; apply elem_of_union; by right|by right]. }
  destruct (pdf_at e input_pdf_path) as [n|err] eqn:Hpdf; cycle 1.
  { destruct (run_open_failed e input_pdf_path split_pages output_folder w err Hpdf)
      as [out ->].
    simpl. split_and!; [by exists []; rewrite (right_id_L [] (++))|done|done|by left]. }
  destruct (decide (n = 0%nat)) as [->|Hn].
  { destruct (run_empty_document e input_pdf_path split_pages output_folder w Hpdf)
      as [out ->].
    simpl. split_and!; [by eexists|done|done|by left]. }
  pose proof (NoDup_split_chunks (Z.of_nat n) split_pages ltac:(lia)) as Hnd.
  pose proof (split_chunks_within (Z.of_nat n) split_pages ltac:(lia)) as Hin.
  rewrite Forall_forall in Hin.
  assert (∀ c, c ∈ split_chunks (Z.of_nat n) split_pages →
               is_chunk (chunk_path output_folder c) c) as Hchunk.
  { intros c Hc. exists n. split; [done|]. split; [done|].
    split; [by apply Hin|done]. }
  destruct (ensure_folder_bounds e output_folder w) as [Hlow Hhigh].
  destruct (run_with_pages e input_pdf_path split_pages output_folder w n Hpdf Hn)
    as [(_ & out & ->)
       |[(_ & _ & err & out & _ & ->)
        |[(_ & _ & Hok & out & ->)
         |(_ & _ & pre & c & post & err & out & Hcs & Hpre & Hbad & ->)]]]; simpl.
  - split_and!; [by eexists|done|done|by left].
  - split_and!; [by eexists|done| |by left].
    intros path Hp Hnot. exfalso. apply Hnot, elem_of_union. by right.
  - split_and!.
    + by eexists.
    + intros path [Hp _]%elem_of_clear_targets. by apply Hhigh.
    + intros path Hp Hnot. rewrite elem_of_clear_targets in Hnot.
      destruct (decide (path ∈ chunk_path output_folder
                          <$> split_chunks (Z.of_nat n) split_pages)) as [Hpath|Hpath].
      * apply list_elem_of_fmap in Hpath as (c & -> & Hc). exists c. by apply Hchunk.
      * exfalso. apply Hnot. split; [by apply Hlow|done].
    + intros path.
      destruct (write_all_lookup_cases output_folder _ (disk w) path Hnd)
        as [?|(c & Hc & -> & Hlook)]; [by left|].
      right. exists c. split; [by apply Hchunk|done].
  - assert (∀ c', c' ∈ pre ++ [c] → c' ∈ split_chunks (Z.of_nat n) split_pages)
      as Hstarted.
    { intros c' Hc'. rewrite Hcs, (cons_middle c pre post), (assoc_L (++)).
      apply elem_of_app. by left. }
    rewrite Hcs in Hnd. apply NoDup_app in Hnd as (Hndpre & _ & _).
    split_and!.
    + by eexists.
    + intros path Hp. apply elem_of_failed_folders in Hp.
      apply elem_of_clear_targets in Hp as [Hp _]. by apply Hhigh.
    + intros path Hp Hnot.
      destruct (decide (path ∈ chunk_path output_folder <$> pre ++ [c]))
        as [Hpath|Hpath].
      * apply list_elem_of_fmap in Hpath as (c' & -> & Hc'). exists c'.
        by apply Hchunk, Hstarted.
      * exfalso. apply Hnot. rewrite fmap_app, not_elem_of_app in Hpath.
        destruct Hpath as [Hpre' Hc]. apply elem_of_failed_folders.
        -- apply elem_of_clear_targets. split; [by apply Hlow|done].
        -- intros ->. apply Hc. simpl. left.
    + intros path.
      destruct (decide (path = chunk_path output_folder c)) as [->|Hne].
      * right. exists c. split.
        -- apply Hchunk, Hstarted, elem_of_app. right. left.
        -- intros Hnone. congruence.
      * rewrite failed_disk_lookup_ne by done.
        destruct (write_all_lookup_cases output_folder pre (disk w) path Hndpre)
          as [?|(c' & Hc' & -> & Hlook)]; [by left|].
        right. exists c'. split; [|done].
        apply Hchunk, Hstarted, elem_of_app. by left.
Qed.

(** X4 (documents on every exit, lines 17-67).  On a PDF that has pages, when
    the call returns (no valid point remains, or the output folder is in
    place), the documents it created are the input document, with all its
    pages and closed, followed by one closed output document per chunk it
    started, in the order of the chunks, each holding exactly the pages of
    its chunk.  When instead [os.makedirs] raises, the exception escapes with
    the input document open and no output document created. *)
Theorem X4_documents_on_every_exit (e : env) (input_pdf_path : string)
    (split_pages : list Z) (output_folder : string) (w : world) (n : nat) :
  pdf_at e input_pdf_path = Ok n →
  n ≠ 0%nat →
  let w' := run e input_pdf_path split_pages output_folder w in
  let outcome := (split_pdf_by_pages e input_pdf_path split_pages output_folder w).1 in
  (validate (Z.of_nat n) split_pages = [] ∨ folder_ready e w output_folder →
   ∃ started,
     started `prefix_of` split_chunks (Z.of_nat n) split_pages
     ∧ handles w'
       = handles w ++ Document false (seqZ 0 (Z.of_nat n)) :: (chunk_doc <$> started)
     ∧ Forall (λ d, is_open d = false) (drop (length (handles w)) (handles w'))
     ∧ (outcome = Returned ∨ outcome = Next tt))
  ∧ (validate (Z.of_nat n) split_pages ≠ [] →
     ¬ exists_on w output_folder →
     ∀ err, (makedirs_to e output_folder).2 = Some err →
            outcome = Escaped err
            ∧ handles w' = handles w ++ [Document true (seqZ 0 (Z.of_nat n))]).
Proof.
  intros Hpdf Hn w' outcome. subst w' outcome. unfold run.
  assert (∀ started,
    Forall (λ d, is_open d = false)
      (drop (length (handles w))
         (handles w ++ Document false (seqZ 0 (Z.of_nat n)) :: (chunk_doc <$> started))))
    as Hclosed.
  { intros started. rewrite drop_app_length. constructor; [done|].
    apply Forall_fmap, Forall_forall. done. }
  split.
  - intros Hcase.
    destruct (run_with_pages e input_pdf_path split_pages output_folder w n Hpdf Hn)
      as [(_ & out & ->)
         |[(Hne & Hmissing & err & out & Hraise & _)
          |[(_ & _ & Hok & out & ->)
           |(_ & _ & pre & c & post & err & out & Hcs & Hpre & Hbad & ->)]]]; simpl.
    + exists []. split_and!; [apply prefix_nil|done|apply (Hclosed [])|by left].
    + exfalso. destruct Hcase as [?|[?|Hnone]]; [done..|]. congruence.
    + eexists. split_and!; [done..|apply Hclosed|by right].
    + exists (pre ++ [c]). split_and!; [|done|apply Hclosed|by left].
      exists post. rewrite Hcs. by rewrite <- (assoc_L (++)).
  - intros Hne Hmissing err Hraise.
    destruct (run_makedirs_raised e input_pdf_path split_pages output_folder w n
                Hpdf Hn err Hne Hmissing Hraise) as [out ->].
    done.
Qed.

Lemma X4_documents_on_every_exit_witness :
  (split_pdf_by_pages (env_no_folder 100) "pdf_to_split.pdf" [21; 77] "" empty_world).1
  = Escaped "No such file or directory"
  ∧ handles (run (env_no_folder 100) "pdf_to_split.pdf" [21; 77] "" empty_world)
    = handles empty_world ++ [Document true (seqZ 0 (Z.of_nat 100))].
Proof.
  destruct (X4_documents_on_every_exit (env_no_folder 100) "pdf_to_split.pdf"
              [21; 77] "" empty_world 100) as [_ Hraise];
    [reflexivity|lia|].
  apply Hraise; [by vm_compute| |reflexivity].
  intros [Hfolder|Hfile]; [by apply elem_of_empty in Hfolder|].
  by apply is_Some_None in Hfile.
Defined.

(** X5 (partial output is a prefix of the document, lines 44-65).  When the
    output folder is in place and the save of a chunk raises, the chunks
    saved before it are on disk with their pages, and these pages, put end to
    end, are exactly the pages of the document before that chunk; the pages
    from its start on are in no chunk saved by the call. *)
Theorem X5_partial_output_is_a_prefix (e : env) (input_pdf_path : string)
    (split_pages : list Z) (output_folder : string) (w : world) (n : nat)
    (pre post : list (Z * Z)) (c : Z * Z) (err : string) :
  pdf_at e input_pdf_path = Ok n →
  1 ≤ Z.of_nat n →
  validate (Z.of_nat n) split_pages ≠ [] →
  folder_ready e w output_folder →
  split_chunks (Z.of_nat n) split_pages = pre ++ c :: post →
  Forall (λ c, save_to e (chunk_path output_folder c) = None) pre →
  save_to e (chunk_path output_folder c) = Some err →
  let w' := run e input_pdf_path split_pages output_folder w in
  (∀ c', c' ∈ pre → disk w' !! chunk_path output_folder c' = Some (chunk_pages c'))
  ∧ concat (chunk_pages <$> pre) = Py.range 0 c.1
  ∧ 0 ≤ c.1 < Z.of_nat n.
Proof.
  intros Hpdf Hn Hne Hready Hcs Hok Hbad w'. subst w'. unfold run.
  destruct (run_save_failed e input_pdf_path split_pages output_folder w n Hpdf
              ltac:(lia) pre post c err Hne Hready Hcs Hok Hbad) as [out ->].
  simpl. split; [|split].
  - pose proof (NoDup_split_chunks (Z.of_nat n) split_pages Hn) as Hnd.
    rewrite Hcs in Hnd. apply NoDup_app in Hnd as (Hpre & Hdisj & _).
    intros c' Hc'. rewrite failed_disk_lookup_ne.
    + by apply write_all_lookup.
    + intros Heq%(inj _). subst c'. apply (Hdisj c Hc'). left.
  - rewrite split_chunks_ranges in Hcs by done.
    rewrite (chunk_ranges_prefix_pages
               (boundaries (Z.of_nat n) (validate (Z.of_nat n) split_pages))
               pre post c); [done| |done].
    apply lt_sorted_le_sorted. by apply split_boundaries_sorted.
  - pose proof (split_chunks_within (Z.of_nat n) split_pages Hn) as Hin.
    rewrite Hcs, Forall_app, Forall_cons in Hin. lia.
Qed.

Lemma X5_partial_output_is_a_prefix_witness :
  concat (chunk_pages <$> [(0, 21)]) = Py.range 0 (21, 77).1
  ∧ ∀ c', c' ∈ [(0, 21)] →
          disk (run (env_save_fails 100 "output_chunks/chunk_22_to_77.pdf")
                  "pdf_to_split.pdf" [21; 77] default_output_folder empty_world)
            !! chunk_path default_output_folder c'
          = Some (chunk_pages c').
Proof.
  destruct (X5_partial_output_is_a_prefix
              (env_save_fails 100 "output_chunks/chunk_22_to_77.pdf")
              "pdf_to_split.pdf" [21; 77] default_output_folder empty_world 100
              [(0, 21)] [(77, 100)] (21, 77) "cannot write")
    as (Hdisk & Hpages & _).
  - reflexivity.
  - lia.
  - by vm_compute.
  - right. reflexivity.
  - by vm_compute.
  - repeat constructor.
  - reflexivity.
  - split; [exact Hpages|exact Hdisk].
Defined.



Lemma ends_with_slash_spec (s : string) :
  Py.ends_with_slash s = true ↔ ∃ s', s = s' +:+ "/".
Proof.
  split.
  - induction s as [|c s IH]; [done|].
    destruct s as [|c' s].
    + simpl. intros ->%bool_decide_eq_true. by exists "".
    + intros Hs. destruct (IH Hs) as [s' ->].
      by exists (String c s').
  - intros [s' ->]. induction s' as [|c s' IH]; [done|].
    simpl. by destruct (s' +:+ "/") eqn:Hs'; [destruct s'|].
Qed.

(** X7 (where the files go, line 55).  The path of a chunk is the output
    folder immediately followed by the chunk's file name when the folder is
    empty or ends in a slash, and the folder, a slash and the file name
    otherwise; and for a given folder two ranges with the same path are the
    same range, so a file name determines its page range. *)
Theorem X7_chunk_paths_inside_folder_and_injective (output_folder : string)
    (start_page end_page : Z) :
  (output_folder = "" ∨ (∃ s, output_folder = s +:+ "/") →
   Py.path_join output_folder (chunk_name start_page end_page)
   = output_folder +:+ chunk_name start_page end_page)
  ∧ (output_folder ≠ "" → (∀ s, output_folder ≠ s +:+ "/") →
     Py.path_join output_folder (chunk_name start_page end_page)
     = output_folder +:+ "/" +:+ chunk_name start_page end_page)
  ∧ ∀ start_page' end_page',
      Py.path_join output_folder (chunk_name start_page end_page)
      = Py.path_join output_folder (chunk_name start_page' end_page') →
      start_page = start_page' ∧ end_page = end_page'.
Proof.
  split_and!.
  - intros Hcase. unfold Py.path_join.
    replace (Py.starts_with_slash (chunk_name start_page end_page)) with false by done.
    destruct Hcase as [->|Hslash]; [done|].
    apply ends_with_slash_spec in Hslash. rewrite Hslash. by rewrite orb_true_r.
  - intros Hne Hslash. unfold Py.path_join.
    replace (Py.starts_with_slash (chunk_name start_page end_page)) with false by done.
    rewrite bool_decide_eq_false_2 by done.
    destruct (Py.ends_with_slash output_folder) eqn:Hends; [|done].
    apply ends_with_slash_spec in Hends as [s ->]. by destruct (Hslash s).
  - intros start_page' end_page'. apply path_join_chunk_inj.
Qed.

(** X8 (the output folder, lines 38-40).  Once a valid point remains and the
    folder exists or [os.makedirs] does not raise, the output folder exists
    when the call returns, whether or not the saves succeed.  If it existed,
    no folder is added; if not, it is created, and the folders added are it
    and the parents [os.makedirs] creates.  A folder that is not at the path
    of a chunk is never removed. *)
Theorem X8_output_folder_in_place (e : env) (input_pdf_path : string)
    (split_pages : list Z) (output_folder : string) (w : world) (n : nat) :
  pdf_at e input_pdf_path = Ok n →
  1 ≤ Z.of_nat n →
  validate (Z.of_nat n) split_pages ≠ [] →
  folder_ready e w output_folder →
  let w' := run e input_pdf_path split_pages output_folder w in
  exists_on w' output_folder
  ∧ (exists_on w output_folder → folders w' ⊆ folders w)
  ∧ (¬ exists_on w output_folder →
     output_folder ∈ folders w'
     ∧ folders w' ⊆ {[output_folder]} ∪ list_to_set (makedirs_to e output_folder).1
                    ∪ folders w)
  ∧ (∀ path,
       path ∈ folders w →
       path ∉ chunk_path output_folder <$> split_chunks (Z.of_nat n) split_pages →
       path ∈ folders w').
Proof.
  intros Hpdf Hn Hne Hready w'.
  assert (∃ done_ rest fs d,
    split_chunks (Z.of_nat n) split_pages = done_ ++ rest
    ∧ folders w' = fs ∧ disk w' = d
    ∧ (∀ path, path ∈ fs → path ∈ ensure_folder e output_folder w)
    ∧ (∀ path, path ∈ ensure_folder e output_folder w →
               path ∉ chunk_path output_folder <$> done_ → path ∈ fs)
    ∧ (∀ path, path ∉ chunk_path output_folder <$> done_ →
               is_Some (disk w !! path) → is_Some (d !! path)))
    as (done_ & rest & fs & d & Hcs & Hfs & Hd & Hsub & Hkeep & Hfile).
  { subst w'. unfold run.
    destruct (run_with_pages e input_pdf_path split_pages output_folder w n Hpdf
                ltac:(lia))
      as [(? & _)
         |[(_ & Hmissing & err & out & Hraise & _)
          |[(_ & _ & Hok & out & ->)
           |(_ & _ & pre & c & post & err & out & Hcs & Hpre & Hbad & ->)]]];
      [done| |simpl..].
    - exfalso. destruct Hready as [?|Hnone]; [done|]. congruence.
    - eexists _, [], _, _. rewrite (right_id_L [] (++)).
      split_and!; [done..| | |].
      + by intros path [? _]%elem_of_clear_targets.
      + intros path Hp Hnot. by apply elem_of_clear_targets.
      + intros path _ Hsome. by apply write_all_is_Some.
    - exists (pre ++ [c]), post. eexists _, _.
      split_and!; [by rewrite <- (assoc_L (++))|done..| | |].
      + intros path Hp%elem_of_failed_folders.
        by apply elem_of_clear_targets in Hp as [? _].
      + intros path Hp Hnot. rewrite fmap_app, not_elem_of_app in Hnot.
        destruct Hnot as [Hpre' Hc]. apply elem_of_failed_folders.
        * by apply elem_of_clear_targets.
        * intros ->. apply Hc. simpl. left.
      + intros path Hnot Hsome. rewrite fmap_app, not_elem_of_app in Hnot.
        destruct Hnot as [Hpre' Hc]. rewrite failed_disk_lookup_ne.
        * by apply write_all_is_Some.
        * intros ->. apply Hc. simpl. left. }
  assert (∀ cs' : list (Z * Z),
            output_folder ∉ chunk_path output_folder <$> cs') as Hnot.
  { intros cs' (c & Heq & _)%list_elem_of_fmap.
    by apply (chunk_path_ne_folder output_folder c). }
  destruct (ensure_folder_bounds e output_folder w) as [Hlow Hhigh].
  rewrite Hfs. split_and!.
  - unfold exists_on. rewrite Hfs, Hd.
    destruct (decide (exists_on w output_folder)) as [[Hfolder|Hsome]|Hmissing].
    + left. apply Hkeep; [by apply Hlow|done].
    + right. by apply Hfile.
    + left. apply Hkeep; [|done]. rewrite ensure_folder_missing by done.
      apply elem_of_union. left. apply elem_of_union. left. by apply elem_of_singleton.
  - intros Hex path Hp. apply Hsub in Hp. by rewrite ensure_folder_exists in Hp.
  - intros Hmissing. split.
    + apply Hkeep; [|done]. rewrite ensure_folder_missing by done.
      apply elem_of_union. left. apply elem_of_union. left. by apply elem_of_singleton.
    + intros path Hp. by apply Hhigh, Hsub.
  - intros path Hp Hpath. apply Hkeep; [by apply Hlow|].
    intros Hin. apply Hpath. rewrite Hcs, fmap_app. apply elem_of_app. by left.
Qed.

Lemma X8_output_folder_in_place_witness :
  exists_on (run (env_save_fails 100 "output_chunks/chunk_1_to_21.pdf")
               "pdf_to_split.pdf" [21; 77] default_output_folder empty_world)
    default_output_folder.
Proof.
  apply (X8_output_folder_in_place
           (env_save_fails 100 "output_chunks/chunk_1_to_21.pdf")
           "pdf_to_split.pdf" [21; 77] default_output_folder empty_world 100);
    [reflexivity|lia|by vm_compute|right; reflexivity].
Defined.

(** X9 (validation is stable, lines 29-32).  The validated points pass the
    guard of line 30, and validating them again returns them unchanged, for
    every page count. *)
Theorem X9_validate_is_stable (total_pages : Z) (split_pages : list Z) :
  needs_adjusting total_pages (validate total_pages split_pages) = false
  ∧ normalize (validate total_pages split_pages) = validate total_pages split_pages
  ∧ validate total_pages (validate total_pages split_pages)
    = validate total_pages split_pages.
Proof.
  assert (Forall (λ p, in_bounds total_pages p = true)
            (validate total_pages split_pages)) as Hin.
  { eapply Forall_impl; [apply validate_in_bounds|].
    intros p. apply in_bounds_spec. }
  assert (normalize (validate total_pages split_pages)
          = validate total_pages split_pages) as Hnorm.
  { apply lt_sorted_unique; [apply normalize_sorted|apply validate_sorted|].
    intros p. apply elem_of_normalize. }
  split_and!; [by apply all_in_bounds_guard_false|done|].
  rewrite validate_filter, Hnorm. by apply keep_in_bounds_id.
Qed.

(** ** Reading the console *)

Lemma warning_in_opening_lines (input_pdf_path : string) (total_pages : Z)
    (split_pages : list Z) :
  warning_line ∈ opening_lines input_pdf_path total_pages split_pages
  ↔ needs_adjusting total_pages (normalize split_pages) = true.
Proof.
  unfold opening_lines. rewrite elem_of_app, !elem_of_cons, elem_of_nil.
  destruct (needs_adjusting total_pages (normalize split_pages)).
  - split; [done|]. intros _. right. by left.
  - rewrite elem_of_nil. split; [|done]. intros [[H|[H|[]]]|[]]; discriminate H.
Qed.

Lemma warning_not_in_folder_lines (output_folder : string) (w : world) :
  warning_line ∉ folder_lines output_folder w.
Proof.
  unfold folder_lines. destruct (_ || _); [apply not_elem_of_nil|].
  intros H%list_elem_of_singleton. discriminate H.
Qed.

Lemma warning_not_in_saved_lines (output_folder : string) (cs : list (Z * Z)) :
  warning_line ∉ concat (saved_lines output_folder <$> cs).
Proof.
  induction cs as [|c cs IH]; [apply not_elem_of_nil|].
  rewrite fmap_cons. cbn [concat]. rewrite not_elem_of_app. split; [|done].
  unfold saved_lines. rewrite !not_elem_of_cons. split_and!;
    [intros H; discriminate H..|apply not_elem_of_nil].
Qed.

Lemma warning_not_in_failed_lines (output_folder : string) (c : Z * Z) (err : string) :
  warning_line ∉ failed_lines output_folder c err.
Proof.
  unfold failed_lines. rewrite !not_elem_of_cons. split_and!;
    [intros H; discriminate H..|apply not_elem_of_nil].
Qed.

(** The guard of line 30 fires exactly when some requested point is out of
    bounds. *)
Lemma needs_adjusting_iff (total_pages : Z) (split_pages : list Z) :
  needs_adjusting total_pages (normalize split_pages) = true
  ↔ ∃ p, p ∈ split_pages ∧ ¬ (1 ≤ p < total_pages).
Proof.
  split.
  - intros Hg.
    assert (¬ Forall (λ p, in_bounds total_pages p = true) (normalize split_pages))
      as Hnot.
    { intros Hall. apply all_in_bounds_guard_false in Hall. congruence. }
    apply not_Forall_Exists in Hnot; [|intros p; apply _].
    apply Exists_exists in Hnot as (p & Hp & Hout).
    exists p. split; [by apply elem_of_normalize|].
    simpl in Hout. by rewrite in_bounds_spec in Hout.
  - intros (p & Hp & Hout).
    destruct (needs_adjusting total_pages (normalize split_pages)) eqn:Hg; [done|].
    exfalso. apply Hout, in_bounds_spec.
    pose proof (guard_false_all_in_bounds total_pages _
                  (normalize_sorted split_pages) Hg) as Hall.
    rewrite Forall_forall in Hall. by apply Hall, elem_of_normalize.
Qed.

(** X10 (the warning, lines 30-31).  On a PDF that has pages, however the
    call ends, the console gains the warning line exactly when some requested
    split point is out of bounds. *)
Theorem X10_warning_iff_point_out_of_bounds (e : env) (input_pdf_path : string)
    (split_pages : list Z) (output_folder : string) (w : world) (n : nat) :
  pdf_at e input_pdf_path = Ok n →
  n ≠ 0%nat →
  ∃ out,
    stdout (run e input_pdf_path split_pages output_folder w) = stdout w ++ out
    ∧ (warning_line ∈ out
       ↔ ∃ p, p ∈ split_pages ∧ ¬ (1 ≤ p < Z.of_nat n)).
Proof.
  intros Hpdf Hn. unfold run.
  assert (∀ rest,
    warning_line ∉ rest →
    warning_line ∈ opening_lines input_pdf_path (Z.of_nat n) split_pages ++ rest
    ↔ ∃ p, p ∈ split_pages ∧ ¬ (1 ≤ p < Z.of_nat n)) as Hiff.
  { intros rest Hrest.
    rewrite elem_of_app, warning_in_opening_lines, needs_adjusting_iff. tauto. }
  destruct (decide (validate (Z.of_nat n) split_pages = [])) as [Hnone|Hne].
  { eexists. split.
    + by apply no_valid_points_stdout.
    + apply Hiff. intros H%list_elem_of_singleton. discriminate H. }
  destruct (run_with_pages e input_pdf_path split_pages output_folder w n Hpdf Hn)
    as [(? & _)
       |[(_ & Hmissing & err & out & Hraise & _)
        |[(_ & Hready & Hall & _)
         |(_ & Hready & pre & c & post & err & out & Hcs & Hpre & Hbad & _)]]];
    [done|..].
  - exists (opening_lines input_pdf_path (Z.of_nat n) split_pages ++ []). split.
    + rewrite (right_id_L [] (++)). by eapply makedirs_raised_stdout.
    + apply Hiff, not_elem_of_nil.
  - eexists. split.
    + by apply all_saved_stdout.
    + apply Hiff. rewrite !not_elem_of_app. split_and!.
      * apply warning_not_in_folder_lines.
      * apply warning_not_in_saved_lines.
      * intros H%list_elem_of_singleton. discriminate H.
  - eexists. split.
    + by eapply save_failed_stdout.
    + apply Hiff. rewrite !not_elem_of_app. split_and!.
      * apply warning_not_in_folder_lines.
      * apply warning_not_in_saved_lines.
      * apply warning_not_in_failed_lines.
Qed.

Lemma X10_warning_iff_point_out_of_bounds_witness :
  ∃ out,
    stdout (run (env_ok 100) "pdf_to_split.pdf" [0; 21; 77] default_output_folder
              empty_world)
    = stdout empty_world ++ out
    ∧ (warning_line ∈ out ↔ ∃ p, p ∈ [0; 21; 77] ∧ ¬ (1 ≤ p < Z.of_nat 100)).
Proof.
  apply (X10_warning_iff_point_out_of_bounds (env_ok 100) "pdf_to_split.pdf"
           [0; 21; 77] default_output_folder empty_world 100); [reflexivity|lia].
Defined.

(** X11 (the success line, lines 38-68).  On a PDF that has pages, with the
    output folder existing or [os.makedirs] not raising, the last line on the
    console is the success line exactly when a valid point remained and every
    chunk was saved; after a no-op exit or a failed save the last line is
    another one. *)
Theorem X11_success_line_iff_all_saved (e : env) (input_pdf_path : string)
    (split_pages : list Z) (output_folder : string) (w : world) (n : nat) :
  pdf_at e input_pdf_path = Ok n →
  n ≠ 0%nat →
  folder_ready e w output_folder →
  last (stdout (run e input_pdf_path split_pages output_folder w)) = Some success_line
  ↔ validate (Z.of_nat n) split_pages ≠ []
    ∧ Forall (λ c, save_to e (chunk_path output_folder c) = None)
        (split_chunks (Z.of_nat n) split_pages).
Proof.
  intros Hpdf Hn Hready. unfold run.
  destruct (decide (validate (Z.of_nat n) split_pages = [])) as [Hnone|Hne].
  - rewrite (no_valid_points_stdout e input_pdf_path split_pages output_folder w n
               Hpdf Hn Hnone).
    rewrite !(assoc_L (++)), last_snoc. split; [intros [= H]|by intros [? _]].
  - destruct (first_save_failure e output_folder
                (split_chunks (Z.of_nat n) split_pages))
      as [Hall|(pre & c & post & err & Hcs & Hpre & Hbad)].
    + rewrite (all_saved_stdout e input_pdf_path split_pages output_folder w n
                 Hpdf Hn Hne Hready Hall).
      by rewrite !(assoc_L (++)), last_snoc.
    + rewrite (save_failed_stdout e input_pdf_path split_pages output_folder w n
                 Hpdf Hn pre post c err Hne Hready Hcs Hpre Hbad).
      unfold failed_lines. rewrite !last_app. cbn [last].
      split; [intros [= H]|].
      intros [_ Hall]. rewrite Hcs, Forall_app, Forall_cons in Hall.
      destruct Hall as (_ & Hc & _). congruence.
Qed.

Lemma X11_success_line_iff_all_saved_witness :
  last (stdout (run (env_ok 100) "pdf_to_split.pdf" [21; 77] default_output_folder
                  empty_world))
  = Some success_line
  ↔ validate (Z.of_nat 100) [21; 77] ≠ []
    ∧ Forall (λ c, save_to (env_ok 100) (chunk_path default_output_folder c) = None)
        (split_chunks (Z.of_nat 100) [21; 77]).
Proof.
  apply (X11_success_line_iff_all_saved (env_ok 100) "pdf_to_split.pdf" [21; 77]
           default_output_folder empty_world 100);
    [reflexivity|lia|right; reflexivity].
Defined.

(** X12 (the console of a clean run, lines 15-68).  When a valid point
    remains, the output folder exists or [os.makedirs] does not raise, and no
    save raises, the console gains, in this order: the attempt line, the page
    count, the warning if the guard of line 30 fired, the folder line if the
    folder had to be created, three lines per chunk in the order of the
    chunks, and the success line. *)
Theorem X12_console_of_a_clean_run (e : env) (input_pdf_path : string)
    (split_pages : list Z) (output_folder : string) (w : world) (n : nat) :
  pdf_at e input_pdf_path = Ok n →
  n ≠ 0%nat →
  validate (Z.of_nat n) split_pages ≠ [] →
  folder_ready e w output_folder →
  Forall (λ c, save_to e (chunk_path output_folder c) = None)
    (split_chunks (Z.of_nat n) split_pages) →
  stdout (run e input_pdf_path split_pages output_folder w)
  = stdout w
    ++ ["Attempting to read PDF: " +:+ input_pdf_path;
        "Total pages in input PDF: " +:+ Py.str (Z.of_nat n)]
    ++ (if needs_adjusting (Z.of_nat n) (normalize split_pages)
        then [warning_line] else [])
    ++ (if bool_decide (exists_on w output_folder)
        then [] else ["Created output folder: " +:+ output_folder])
    ++ concat (saved_lines output_folder <$> split_chunks (Z.of_nat n) split_pages)
    ++ ["All chunks processed successfully!"].
Proof.
  intros Hpdf Hn Hne Hready Hok. unfold run.
  rewrite (all_saved_stdout e input_pdf_path split_pages output_folder w n
             Hpdf Hn Hne Hready Hok).
  unfold opening_lines, folder_lines, success_line.
  rewrite <- !(assoc_L (++)). do 3 f_equal.
  destruct (decide (exists_on w output_folder)) as [Hex|Hex].
  - rewrite (bool_decide_eq_true_2 _ Hex).
    apply exists_on_true in Hex. by rewrite Hex.
  - rewrite (bool_decide_eq_false_2 _ Hex).
    apply exists_on_false in Hex. by rewrite Hex.
Qed.

Lemma X12_console_of_a_clean_run_witness :
  stdout (run (env_ok 100) "pdf_to_split.pdf" [50; 50] default_output_folder empty_world)
  = ["Attempting to read PDF: pdf_to_split.pdf";
     "Total pages in input PDF: 100";
     "Created output folder: output_chunks";
     "Processing chunk from page 1 to 50";
     "Attempting to write to: output_chunks/chunk_1_to_50.pdf";
     "Successfully wrote output_chunks/chunk_1_to_50.pdf";
     "Processing chunk from page 51 to 100";
     "Attempting to write to: output_chunks/chunk_51_to_100.pdf";
     "Successfully wrote output_chunks/chunk_51_to_100.pdf";
     "All chunks processed successfully!"].
Proof.
  rewrite (X12_console_of_a_clean_run (env_ok 100) "pdf_to_split.pdf" [50; 50]
             default_output_folder empty_world 100).
  - by vm_compute.
  - reflexivity.
  - lia.
  - by vm_compute.
  - right. reflexivity.
  - apply Forall_forall. intros c _. reflexivity.
Defined.

(** ** The entry point *)

Lemma keep_in_bounds_positive (total_pages : Z) (l : list Z) :
  Forall (λ p, 1 ≤ p) l →
  keep_in_bounds total_pages l = filter (λ p, p < total_pages) l.
Proof.
  unfold keep_in_bounds. induction 1 as [|p l Hp _ IH]; [done|].
  destruct (decide (p < total_pages)).
  - rewrite !filter_cons_True; [by rewrite IH|done|]. apply in_bounds_spec. lia.
  - rewrite !filter_cons_False; [done..|]. rewrite in_bounds_spec. lia.
Qed.

Lemma my_split_pages_normal : normalize my_split_pages = my_split_pages.
Proof. by vm_compute. Qed.

Lemma my_split_pages_range : Forall (λ p, 32 ≤ p ≤ 936) my_split_pages.
Proof. unfold my_split_pages, num_prefix_pages. simpl. repeat constructor; lia. Qed.

(** X13 (the entry point, lines 71-75).  [main] splits the PDF at the chapter
    starts that lie within it: the points kept are the hard-coded starts
    below the page count.  A PDF of at most 32 pages is left unsplit, nothing
    being written; on a PDF of more than 936 pages every start is kept, no
    warning is due, and a run without a failed save writes 25 files, from
    page 1 to the last page, provided [output_chunks] exists or
    [os.makedirs] creates it; if [os.makedirs] raises instead, the exception
    escapes and nothing is written. *)
Theorem X13_main_splits_at_chapter_starts (e : env) (w : world) (n : nat) :
  pdf_at e input_pdf = Ok n →
  1 ≤ Z.of_nat n →
  validate (Z.of_nat n) my_split_pages = filter (λ p, p < Z.of_nat n) my_split_pages
  ∧ (Z.of_nat n ≤ 32 → disk (main e w).2 = disk w ∧ folders (main e w).2 = folders w)
  ∧ (936 < Z.of_nat n →
     validate (Z.of_nat n) my_split_pages = my_split_pages
     ∧ needs_adjusting (Z.of_nat n) (normalize my_split_pages) = false
     ∧ let ranges := chunk_ranges ([0] ++ my_split_pages ++ [Z.of_nat n]) in
       length ranges = 25%nat
       ∧ concat (chunk_pages <$> ranges) = Py.range 0 (Z.of_nat n)
       ∧ (Forall (λ c, save_to e (chunk_path default_output_folder c) = None) ranges →
          (folder_ready e w default_output_folder →
           disk (main e w).2 = write_all default_output_folder ranges (disk w))
          ∧ (¬ exists_on w default_output_folder →
             ∀ err, (makedirs_to e default_output_folder).2 = Some err →
                    (main e w).1 = Escaped err ∧ disk (main e w).2 = disk w))).
Proof.
  intros Hpdf Hn.
  assert (validate (Z.of_nat n) my_split_pages
          = filter (λ p, p < Z.of_nat n) my_split_pages) as Hvalid.
  { rewrite validate_filter, my_split_pages_normal. apply keep_in_bounds_positive.
    eapply Forall_impl; [apply my_split_pages_range|]. simpl. lia. }
  split_and!; [done| |].
  - intros Hshort.
    assert (validate (Z.of_nat n) my_split_pages = []) as Hnone.
    { rewrite Hvalid. apply elem_of_nil_inv. intros p [Hp Hin]%list_elem_of_filter.
      pose proof my_split_pages_range as Hr. rewrite Forall_forall in Hr.
      specialize (Hr p Hin). lia. }
    unfold main.
    destruct (run_no_valid_points e input_pdf my_split_pages default_output_folder w n
                Hpdf ltac:(lia) Hnone) as [out ->].
    done.
  - intros Hlong.
    assert (validate (Z.of_nat n) my_split_pages = my_split_pages) as Hall.
    { rewrite validate_filter, my_split_pages_normal. apply keep_in_bounds_id.
      eapply Forall_impl; [apply my_split_pages_range|].
      intros p Hp. apply in_bounds_spec. simpl in Hp. lia. }
    pose proof (split_chunks_ranges (Z.of_nat n) my_split_pages Hn) as Hcs.
    rewrite Hall in Hcs. unfold boundaries in Hcs.
    split_and!; [done| |].
    + rewrite my_split_pages_normal. apply all_in_bounds_guard_false.
      eapply Forall_impl; [apply my_split_pages_range|].
      intros p Hp. apply in_bounds_spec. simpl in Hp. lia.
    + intros ranges. subst ranges. split_and!.
      * rewrite length_chunk_ranges. by vm_compute.
      * rewrite <- Hcs. unfold split_chunks, boundaries. simpl.
        rewrite chunks_concat.
        -- by rewrite last_cons, last_snoc.
        -- apply lt_sorted_le_sorted, (split_boundaries_sorted _ _ Hn).
      * assert (validate (Z.of_nat n) my_split_pages ≠ []) as Hne
          by (rewrite Hall; intros Hnil; discriminate Hnil).
        intros Hok. unfold main. split.
        -- intros Hready.
           destruct (run_all_saved e input_pdf my_split_pages default_output_folder w n
                       Hpdf ltac:(lia) Hne Hready) as [out ->].
           ++ by rewrite Hcs.
           ++ simpl. by rewrite Hcs.
        -- intros Hmissing err Hraise.
           destruct (run_makedirs_raised e input_pdf my_split_pages
                       default_output_folder w n Hpdf ltac:(lia) err Hne Hmissing Hraise)
             as [out ->].
           done.
Qed.

Lemma X13_main_splits_at_chapter_starts_witness :
  validate (Z.of_nat 500) my_split_pages = filter (λ p, p < Z.of_nat 500) my_split_pages.
Proof.
  apply (X13_main_splits_at_chapter_starts (env_ok 500) empty_world 500);
    [reflexivity|lia].
Defined.

(** ** The chunks named by the docstring *)

Lemma chunk_ranges_zip (x total_pages : Z) (split_pages : list Z) :
  chunk_ranges (x :: split_pages ++ [total_pages])
  = zip (x :: split_pages) (split_pages ++ [total_pages]).
Proof.
  revert x. induction split_pages as [|y l IH]; intros x; [done|].
  simpl. rewrite chunk_ranges_cons. f_equal. apply IH.
Qed.

(** X14 (the chunks of the docstring, lines 11-12 and 43-53).  For a document
    of at least one page the chunks are, as the docstring says, from the
    start to the first valid point, from each valid point to the next, and
    from the last valid point to the end; each lies within the document and
    is non-empty, so [insert_pdf] is only ever asked for pages
    [from_page <= to_page] that the document has. *)
Theorem X14_chunks_follow_the_split_points (total_pages : Z) (split_pages : list Z) :
  1 ≤ total_pages →
  let valid := validate total_pages split_pages in
  split_chunks total_pages split_pages = zip (0 :: valid) (valid ++ [total_pages])
  ∧ Forall (λ c, 0 ≤ c.1 ∧ c.1 ≤ c.2 - 1 ∧ c.2 - 1 < total_pages)
      (split_chunks total_pages split_pages).
Proof.
  intros Htotal valid. split.
  - rewrite split_chunks_ranges by done. unfold boundaries. simpl.
    apply chunk_ranges_zip.
  - eapply Forall_impl; [by apply split_chunks_within|].
    simpl. intros c. lia.
Qed.

Lemma X14_chunks_follow_the_split_points_witness :
  split_chunks 100 [77; 0; 21; 21; 100]
  = zip (0 :: validate 100 [77; 0; 21; 21; 100])
        (validate 100 [77; 0; 21; 21; 100] ++ [100]).
Proof.
  apply (X14_chunks_follow_the_split_points 100 [77; 0; 21; 21; 100]). lia.
Defined.
